(** * Ambulance waiting list web API: waiting-list operations and document store

    A shallow embedding of
    - [internal/ambulance_wl/impl_ambulance_waiting_list.go]: the five request
      handlers of the waiting list (the closures handed to
      [updateAmbulanceFunc]);
    - [internal/db_service/mongo_svc.go]: the generic document store
      ([FindDocument], [UpdateDocument], ...) and its lazily created, shared
      client ([connect]).

    Instants are integers (nanoseconds counted from Go's zero [time.Time]),
    strings are [string], slices are [list]s, a Mongo collection is the list of
    its documents.  The two effects of the handlers, reading the clock and
    drawing a UUID, are threaded through a small state monad over [World]. *)

From stdpp Require Import base tactics option list strings gmap sorting.
From Stdlib Require Import ZArith Lia.

Local Open Scope string_scope.
Local Open Scope Z_scope.

(** ** Package [time] *)

Module time.

(** An instant: nanoseconds elapsed since the zero value [time.Time{}]
    (January 1, year 1, 00:00 UTC).  Instants before the zero value exist
    (RFC 3339 admits year 0000), so the carrier is all of [Z]. *)
Definition Time : Type := Z.

(** [time.Time{}] *)
Definition zero : Time := 0.

(** [t.Before(u)]: the instant [t] is strictly before [u]. *)
Definition Before (t u : Time) : bool := t <? u.

(** [t.After(u)]: the instant [t] is strictly after [u]. *)
Definition After (t u : Time) : bool := u <? t.

(** [time.Minute], in nanoseconds. *)
Definition Minute : Z := 60 * 1000000000.

End time.

Abbreviation Time := time.Time.

(** ** Data model *)

(** Modelled from the spec: the declaration of [WaitingListEntry] is not among
    the sources.  The handlers use the fields [Id], [PatientId],
    [WaitingSince] and [EstimatedDurationMinutes]; [EstimatedStart] is the
    derived field ("estimated start time") that reconciliation recomputes. *)
Record WaitingListEntry : Type := mkEntry {
  Id : string;
  PatientId : string;
  WaitingSince : Time;
  EstimatedDurationMinutes : Z;
  EstimatedStart : Time
}.

(** Modelled from the spec: the declaration of [Ambulance], the aggregate
    root: identity, name and the ordered waiting list. *)
Record Ambulance : Type := mkAmbulance {
  Ambulance_Id : string;
  Ambulance_Name : string;
  WaitingList : list WaitingListEntry
}.

Global Instance WaitingListEntry_eq_dec : EqDecision WaitingListEntry.
Proof. solve_decision. Defined.

Global Instance Ambulance_eq_dec : EqDecision Ambulance.
Proof. solve_decision. Defined.

(** Field assignments [e.F = v] on a value of struct type. *)
Definition set_Id (v : string) (e : WaitingListEntry) : WaitingListEntry :=
  mkEntry v (PatientId e) (WaitingSince e) (EstimatedDurationMinutes e) (EstimatedStart e).
Definition set_PatientId (v : string) (e : WaitingListEntry) : WaitingListEntry :=
  mkEntry (Id e) v (WaitingSince e) (EstimatedDurationMinutes e) (EstimatedStart e).
Definition set_WaitingSince (v : Time) (e : WaitingListEntry) : WaitingListEntry :=
  mkEntry (Id e) (PatientId e) v (EstimatedDurationMinutes e) (EstimatedStart e).
Definition set_EstimatedDurationMinutes (v : Z) (e : WaitingListEntry) : WaitingListEntry :=
  mkEntry (Id e) (PatientId e) (WaitingSince e) v (EstimatedStart e).
Definition set_EstimatedStart (v : Time) (e : WaitingListEntry) : WaitingListEntry :=
  mkEntry (Id e) (PatientId e) (WaitingSince e) (EstimatedDurationMinutes e) v.
Definition set_WaitingList (l : list WaitingListEntry) (a : Ambulance) : Ambulance :=
  mkAmbulance (Ambulance_Id a) (Ambulance_Name a) l.

(** The identity of an entry, and the four fields a caller can supply. *)
Definition identity (e : WaitingListEntry) : string * string := (Id e, PatientId e).
Definition supplied (e : WaitingListEntry) : string * string * Time * Z :=
  (Id e, PatientId e, WaitingSince e, EstimatedDurationMinutes e).

(** The uniqueness invariant of a waiting list: no two entries share [Id],
    no two entries share [PatientId]. *)
Definition unique_entries (l : list WaitingListEntry) : Prop :=
  NoDup (Id <$> l) ∧ NoDup (PatientId <$> l).

(** ** Package [slices] *)

Module slices.

(** The loop of [slices.IndexFunc], from position [i] on. *)
Fixpoint IndexFunc_from {A : Type} (i : Z) (f : A → bool) (s : list A) : Z :=
  match s with
  | [] => -1
  | x :: s' => if f x then i else IndexFunc_from (i + 1) f s'
  end.

(** [slices.IndexFunc(s, f)]: the first index whose element satisfies [f],
    or [-1]. *)
Definition IndexFunc {A : Type} (s : list A) (f : A → bool) : Z :=
  IndexFunc_from 0 f s.

End slices.

(** ** The waiting list reconciler *)

(** Modelled from the spec: [reconcileWaitingList] (section 4.3) is not among
    the sources.  The spec makes it a pure function that re-sorts the list by
    a deterministic key, "e.g., arrival time", and recomputes the derived
    per-entry fields ("estimated start time offsets") so that entries do not
    overlap.  The model orders by [WaitingSince] with a stable insertion sort
    and then lays the estimated starts out one after the other. *)
Module reconciler.

Fixpoint insert_by_arrival (e : WaitingListEntry) (l : list WaitingListEntry)
  : list WaitingListEntry :=
  match l with
  | [] => [e]
  | x :: l' =>
      if WaitingSince e <=? WaitingSince x then e :: x :: l'
      else x :: insert_by_arrival e l'
  end.

Definition sort_by_arrival (l : list WaitingListEntry) : list WaitingListEntry :=
  foldr insert_by_arrival [] l.

(** [free] is the instant at which the ambulance is free again, [None]
    before the first entry. *)
Fixpoint schedule (free : option Time) (l : list WaitingListEntry)
  : list WaitingListEntry :=
  match l with
  | [] => []
  | e :: l' =>
      let start := match free with
                   | None => WaitingSince e
                   | Some t => Z.max t (WaitingSince e)
                   end in
      set_EstimatedStart start e
        :: schedule (Some (start + EstimatedDurationMinutes e * time.Minute)) l'
  end.

Definition Reconcile (l : list WaitingListEntry) : list WaitingListEntry :=
  schedule None (sort_by_arrival l).

(** The ordering invariant: entries are in order of arrival. *)
Definition by_arrival (l : list WaitingListEntry) : Prop :=
  Sorted (λ a b, WaitingSince a ≤ WaitingSince b) l.

End reconciler.

Abbreviation Reconcile := reconciler.Reconcile.

(** [(this *Ambulance) reconcileWaitingList(ctx)]: reconciles the list of the
    aggregate in place. *)
Definition reconcileWaitingList (a : Ambulance) : Ambulance :=
  set_WaitingList (Reconcile (WaitingList a)) a.

(** ** The world of a handler: the clock and the UUID generator *)

(** [clock n] is the instant returned by the [n]-th call of [time.Now()],
    [uuid_source n] the string returned by the [n]-th call of
    [uuid.NewString()]; the two counters record how many calls were made. *)
Record World : Type := mkWorld {
  clock : nat → Time;
  now_calls : nat;
  uuid_source : nat → string;
  uuid_calls : nat
}.

(** Computations that read the clock or draw UUIDs. *)
Definition Eff (A : Type) : Type := World → A * World.

Global Instance Eff_ret : MRet Eff := λ A (a : A) w, (a, w).
Global Instance Eff_bind : MBind Eff :=
  λ A B (f : A → Eff B) (m : Eff A) w, let '(a, w') := m w in f a w'.

(** [time.Now()] *)
Definition time_Now : Eff Time :=
  λ w, (clock w (now_calls w),
        mkWorld (clock w) (S (now_calls w)) (uuid_source w) (uuid_calls w)).

(** [uuid.NewString()] *)
Definition uuid_NewString : Eff string :=
  λ w, (uuid_source w (uuid_calls w),
        mkWorld (clock w) (now_calls w) (uuid_source w) (S (uuid_calls w))).

(** ** Requests and replies *)

(** [net/http] status codes used by the handlers. *)
Module http.
Definition StatusOK : Z := 200.
Definition StatusNoContent : Z := 204.
Definition StatusBadRequest : Z := 400.
Definition StatusNotFound : Z := 404.
Definition StatusConflict : Z := 409.
Definition StatusInternalServerError : Z := 500.
End http.

(** What [c.ShouldBindJSON(&entry)] does with the request body: it fills
    [entry], or fails with an error. *)
Inductive BindJSON : Type :=
| Bound (entry : WaitingListEntry)
| BindError (err : string).

(** The part of [*gin.Context] the handlers read: the path parameter
    [entryId] and the body. *)
Record Context : Type := mkContext {
  Param_entryId : string;
  ShouldBindJSON : BindJSON
}.

(** The response object, the [interface{}] a handler returns: [nil], a
    [gin.H] with status, message and optional error text, an entry, or a list
    of entries. *)
Inductive Response : Type :=
| RespNil
| H (status : Z) (message : string) (error : option string)
| RespEntry (e : WaitingListEntry)
| RespEntries (l : list WaitingListEntry).

(** The three values a handler returns: the ambulance to persist ([None] for
    a [nil] pointer), the response object and the status code.  [Panic] is the run-time panic of an index out of
    range. *)
Inductive Outcome : Type :=
| Return (updated : option Ambulance) (response : Response) (status : Z)
| Panic.

(** ** The handlers of [impl_ambulance_waiting_list.go] *)

(** [CreateWaitingListEntry], lines 16-73. *)
Definition CreateWaitingListEntry (c : Context) (ambulance : Ambulance) : Eff Outcome :=
  match ShouldBindJSON c with
  | BindError err =>
      mret (Return None (H http.StatusBadRequest "Invalid request body" (Some err))
              http.StatusBadRequest)
  | Bound entry =>
      if bool_decide (PatientId entry = "") then
        mret (Return None (H http.StatusBadRequest "Patient ID is required" None)
                http.StatusBadRequest)
      else
        entry ← (if bool_decide (Id entry = "") || bool_decide (Id entry = "@new")
                 then id ← uuid_NewString; mret (set_Id id entry)
                 else mret entry);
        now ← time_Now;
        entry ← (if time.Before (WaitingSince entry) now
                 then now' ← time_Now; mret (set_WaitingSince now' entry)
                 else mret entry);
        let entry := if EstimatedDurationMinutes entry <=? 0
                     then set_EstimatedDurationMinutes 15 entry
                     else entry in
        let conflictIndx :=
          slices.IndexFunc (WaitingList ambulance) (λ waiting,
            bool_decide (Id entry = Id waiting)
            || bool_decide (PatientId entry = PatientId waiting)) in
        if 0 <=? conflictIndx then
          mret (Return None (H http.StatusConflict "Entry already exists" None)
                  http.StatusConflict)
        else
          let ambulance := set_WaitingList (WaitingList ambulance ++ [entry]) ambulance in
          let ambulance := reconcileWaitingList ambulance in
          let entryIndx :=
            slices.IndexFunc (WaitingList ambulance) (λ waiting,
              bool_decide (Id entry = Id waiting)) in
          if entryIndx <? 0 then
            mret (Return None (H http.StatusInternalServerError "Failed to save entry" None)
                    http.StatusInternalServerError)
          else
            match WaitingList ambulance !! Z.to_nat entryIndx with
            | Some stored => mret (Return (Some ambulance) (RespEntry stored) http.StatusOK)
            | None => mret Panic
            end
  end.

(** [DeleteWaitingListEntry], lines 78-105. *)
Definition DeleteWaitingListEntry (c : Context) (ambulance : Ambulance) : Eff Outcome :=
  let entryId := Param_entryId c in
  if bool_decide (entryId = "") then
    mret (Return None (H http.StatusBadRequest "Entry ID is required" None)
            http.StatusBadRequest)
  else
    let entryIndx :=
      slices.IndexFunc (WaitingList ambulance) (λ waiting,
        bool_decide (entryId = Id waiting)) in
    if entryIndx <? 0 then
      mret (Return None (H http.StatusNotFound "Entry not found" None) http.StatusNotFound)
    else
      let ambulance :=
        set_WaitingList (take (Z.to_nat entryIndx) (WaitingList ambulance)
                         ++ drop (Z.to_nat (entryIndx + 1)) (WaitingList ambulance))
                        ambulance in
      let ambulance := reconcileWaitingList ambulance in
      mret (Return (Some ambulance) RespNil http.StatusNoContent).

(** [GetWaitingListEntries], lines 111-120; a [nil] slice and the empty slice
    are both [[]]. *)
Definition GetWaitingListEntries (c : Context) (ambulance : Ambulance) : Eff Outcome :=
  mret (Return None (RespEntries (WaitingList ambulance)) http.StatusOK).

(** [GetWaitingListEntry], lines 126-151. *)
Definition GetWaitingListEntry (c : Context) (ambulance : Ambulance) : Eff Outcome :=
  let entryId := Param_entryId c in
  if bool_decide (entryId = "") then
    mret (Return None (H http.StatusBadRequest "Entry ID is required" None)
            http.StatusBadRequest)
  else
    let entryIndx :=
      slices.IndexFunc (WaitingList ambulance) (λ waiting,
        bool_decide (entryId = Id waiting)) in
    if entryIndx <? 0 then
      mret (Return None (H http.StatusNotFound "Entry not found" None) http.StatusNotFound)
    else
      match WaitingList ambulance !! Z.to_nat entryIndx with
      | Some found => mret (Return None (RespEntry found) http.StatusOK)
      | None => mret Panic
      end.

(** The four guarded assignments of [UpdateWaitingListEntry], lines 198-212,
    applied to the element [stored] of the list. *)
Definition patch (entry stored : WaitingListEntry) : WaitingListEntry :=
  let stored := if negb (bool_decide (PatientId entry = ""))
                then set_PatientId (PatientId entry) stored else stored in
  let stored := if negb (bool_decide (Id entry = ""))
                then set_Id (Id entry) stored else stored in
  let stored := if time.After (WaitingSince entry) time.zero
                then set_WaitingSince (WaitingSince entry) stored else stored in
  let stored := if 0 <? EstimatedDurationMinutes entry
                then set_EstimatedDurationMinutes (EstimatedDurationMinutes entry) stored
                else stored in
  stored.

(** [UpdateWaitingListEntry], lines 158-216. *)
Definition UpdateWaitingListEntry (c : Context) (ambulance : Ambulance) : Eff Outcome :=
  match ShouldBindJSON c with
  | BindError err =>
      mret (Return None (H http.StatusBadRequest "Invalid request body" (Some err))
              http.StatusBadRequest)
  | Bound entry =>
      let entryId := Param_entryId c in
      if bool_decide (entryId = "") then
        mret (Return None (H http.StatusBadRequest "Entry ID is required" None)
                http.StatusBadRequest)
      else
        let entryIndx :=
          slices.IndexFunc (WaitingList ambulance) (λ waiting,
            bool_decide (entryId = Id waiting)) in
        if entryIndx <? 0 then
          mret (Return None (H http.StatusNotFound "Entry not found" None) http.StatusNotFound)
        else
          match WaitingList ambulance !! Z.to_nat entryIndx with
          | None => mret Panic
          | Some stored =>
              let ambulance :=
                set_WaitingList (<[Z.to_nat entryIndx := patch entry stored]> (WaitingList ambulance))
                                ambulance in
              let ambulance := reconcileWaitingList ambulance in
              match WaitingList ambulance !! Z.to_nat entryIndx with
              | Some updated => mret (Return (Some ambulance) (RespEntry updated) http.StatusOK)
              | None => mret Panic
              end
          end
  end.

(** ** The document store of [mongo_svc.go] *)

Module db_service.

(** The errors an operation returns.  [ErrNotFound] and [ErrConflict] are the
    two package-level values; [ErrOther] stands for every error of the driver
    (connection, timeout, decoding). *)
Inductive error : Type :=
| ErrNotFound
| ErrConflict
| ErrOther (msg : string).

(** A [*mongo.Client]: the handle of one constructed connection. *)
Definition Client : Type := nat.

(** What the driver answers during one operation, besides the documents:
    the result of [mongo.Connect] should the operation construct a client,
    the error of [FindOne] other than [mongo.ErrNoDocuments], and the error
    of the write ([InsertOne], [ReplaceOne], [DeleteOne]). *)
Record Driver : Type := mkDriver {
  mongo_Connect : Client + string;
  FindOne_fault : option string;
  write_fault : option string
}.

(** No transport failure during the operation. *)
Definition healthy (drv : Driver) : Prop :=
  (∃ c, mongo_Connect drv = inl c) ∧ FindOne_fault drv = None ∧ write_fault drv = None.

(** The field [client] of [mongoSvc]: the cached handle, [None] for [nil]. *)
Record mongoSvc : Type := mkSvc { client : option Client }.

Section documents.

(** The document type, and the value of the field a document is filed
    under, the one the filter [bson.D{{Key: "id", Value: id}}] reads. *)
Context {DocType : Type}.
Variable doc_id : DocType → string.

(** The collection: its documents, in storage order. *)
Definition Collection : Type := list DocType.

(** [connect], lines 115-148, run by one caller at a time: both checks of
    the cached client see the same value. *)
Definition connect (drv : Driver) (this : mongoSvc) : (Client + error) * mongoSvc :=
  match client this with
  | Some c => (inl c, this)
  | None =>
      match client this with
      | Some c => (inl c, this)
      | None =>
          match mongo_Connect drv with
          | inr err => (inr (ErrOther err), this)
          | inl c => (inl c, mkSvc (Some c))
          end
      end
  end.

(** [collection.FindOne(ctx, filter)]: the first document filed under [id]
    with its position, [None] for [mongo.ErrNoDocuments]. *)
Fixpoint FindOne (coll : Collection) (id : string) : option (nat * DocType) :=
  match coll with
  | [] => None
  | d :: coll' =>
      if bool_decide (doc_id d = id) then Some (0%nat, d)
      else prod_map S (λ x, x) <$> FindOne coll' id
  end.

(** [collection.ReplaceOne(ctx, filter, document)]: the first document filed
    under [id] is replaced. *)
Definition ReplaceOne (coll : Collection) (id : string) (document : DocType) : Collection :=
  match FindOne coll id with
  | Some (i, _) => <[i := document]> coll
  | None => coll
  end.

(** [collection.DeleteOne(ctx, filter)] *)
Definition DeleteOne (coll : Collection) (id : string) : Collection :=
  match FindOne coll id with
  | Some (i, _) => delete i coll
  | None => coll
  end.

(** [collection.InsertOne(ctx, document)] *)
Definition InsertOne (coll : Collection) (document : DocType) : Collection :=
  (coll ++ [document])%list.

(** The state an operation works on: the service and the collection. *)
Definition Store : Type := mongoSvc * Collection.

(** [CreateDocument], lines 170-197. *)
Definition CreateDocument (drv : Driver) (st : Store) (id : string) (document : DocType)
  : option error * Store :=
  let '(this, coll) := st in
  match connect drv this with
  | (inr err, this) => (Some err, (this, coll))
  | (inl _, this) =>
      match FindOne_fault drv with
      | Some err => (Some (ErrOther err), (this, coll))
      | None =>
          match FindOne coll id with
          | Some _ => (Some ErrConflict, (this, coll))
          | None =>
              match write_fault drv with
              | Some err => (Some (ErrOther err), (this, coll))
              | None => (None, (this, InsertOne coll document))
              end
          end
      end
  end.

(** [FindDocument], lines 199-241. *)
Definition FindDocument (drv : Driver) (st : Store) (id : string)
  : (DocType + error) * Store :=
  let '(this, coll) := st in
  match connect drv this with
  | (inr err, this) => (inr err, (this, coll))
  | (inl _, this) =>
      match FindOne_fault drv with
      | Some err => (inr (ErrOther err), (this, coll))
      | None =>
          match FindOne coll id with
          | None => (inr ErrNotFound, (this, coll))
          | Some (_, document) => (inl document, (this, coll))
          end
      end
  end.

(** [UpdateDocument], lines 243-290. *)
Definition UpdateDocument (drv : Driver) (st : Store) (id : string) (document : DocType)
  : option error * Store :=
  let '(this, coll) := st in
  match connect drv this with
  | (inr err, this) => (Some err, (this, coll))
  | (inl _, this) =>
      match FindOne_fault drv with
      | Some err => (Some (ErrOther err), (this, coll))
      | None =>
          match FindOne coll id with
          | None => (Some ErrNotFound, (this, coll))
          | Some _ =>
              match write_fault drv with
              | Some err => (Some (ErrOther err), (this, coll))
              | None => (None, (this, ReplaceOne coll id document))
              end
          end
      end
  end.

(** [DeleteDocument], lines 292-335. *)
Definition DeleteDocument (drv : Driver) (st : Store) (id : string)
  : option error * Store :=
  let '(this, coll) := st in
  match connect drv this with
  | (inr err, this) => (Some err, (this, coll))
  | (inl _, this) =>
      match FindOne_fault drv with
      | Some err => (Some (ErrOther err), (this, coll))
      | None =>
          match FindOne coll id with
          | None => (Some ErrNotFound, (this, coll))
          | Some _ =>
              match write_fault drv with
              | Some err => (Some (ErrOther err), (this, coll))
              | None => (None, (this, DeleteOne coll id))
              end
          end
      end
  end.

End documents.

End db_service.

(** ** One request: find the aggregate, run the handler, persist *)

(** How a request ends: with a reply of the handler, with an error of the
    store (the aggregate is absent, or the store failed), or in a panic. *)
Inductive Result : Type :=
| Replied (response : Response) (status : Z)
| StoreError (err : db_service.error)
| Panicked.

(** Modelled from the spec: [updateAmbulanceFunc] is not among the sources.
    Section 4.4 gives every operation the shape "Find aggregate, mutate the
    in-memory copy, reconcile, Update aggregate document", failing as a whole
    when the aggregate is not found; the handlers return a [nil] ambulance
    when there is "no need to update it in db" (line 149).  [on_find] and
    [on_update] are the driver's answers during the two store operations. *)
Definition updateAmbulanceFunc (on_find on_update : db_service.Driver)
    (ambulanceId : string) (updater : Context → Ambulance → Eff Outcome)
    (c : Context) (st : db_service.Store (DocType := Ambulance)) (w : World)
  : Result * db_service.Store (DocType := Ambulance) * World :=
  match db_service.FindDocument Ambulance_Id on_find st ambulanceId with
  | (inr err, st) => (StoreError err, st, w)
  | (inl ambulance, st) =>
      match updater c ambulance w with
      | (Panic, w) => (Panicked, st, w)
      | (Return None response status, w) => (Replied response status, st, w)
      | (Return (Some updated) response status, w) =>
          match db_service.UpdateDocument Ambulance_Id on_update st ambulanceId updated with
          | (Some err, st) => (StoreError err, st, w)
          | (None, st) => (Replied response status, st, w)
          end
      end
  end.

(** ** What [CreateWaitingListEntry] makes of a request *)

(** The test of line 37: the supplied id is absent or the placeholder. *)
Definition placeholder (id : string) : bool :=
  bool_decide (id = "") || bool_decide (id = "@new").

(** The entry of a validated request after lines 37-47, in the world [w] the
    handler starts in. *)
Definition created (entry : WaitingListEntry) (w : World) : WaitingListEntry :=
  mkEntry
    (if placeholder (Id entry) then uuid_source w (uuid_calls w) else Id entry)
    (PatientId entry)
    (if WaitingSince entry <? clock w (now_calls w)
     then clock w (S (now_calls w)) else WaitingSince entry)
    (if EstimatedDurationMinutes entry <=? 0 then 15 else EstimatedDurationMinutes entry)
    (EstimatedStart entry).

(** The world after lines 37-47: one or two readings of the clock, and at
    most one UUID drawn. *)
Definition world_after_create (entry : WaitingListEntry) (w : World) : World :=
  mkWorld (clock w)
    (if WaitingSince entry <? clock w (now_calls w)
     then S (S (now_calls w)) else S (now_calls w))
    (uuid_source w)
    (if placeholder (Id entry) then S (uuid_calls w) else uuid_calls w).

(** The predicate of the conflict search, lines 49-51. *)
Definition conflicts (entry waiting : WaitingListEntry) : bool :=
  bool_decide (Id entry = Id waiting)
  || bool_decide (PatientId entry = PatientId waiting).

(** The list holds an entry with the id of the entry to create (after line
    37-39) or with its patient id. *)
Definition in_conflict (ambulance : Ambulance) (entry : WaitingListEntry) (w : World) : Prop :=
  ∃ x, x ∈ WaitingList ambulance
       ∧ (Id x = Id (created entry w) ∨ PatientId x = PatientId entry).

(** ** Sample data *)

Module sample.

(** A clock that reads 1000, 1001, ... and a UUID generator. *)
Definition world : World :=
  mkWorld (λ n, 1000 + Z.of_nat n) 0
    (λ n, match n with O => "6ba7b810-9dad" | _ => "6ba7b811-9dad" end) 0.

Definition first : WaitingListEntry := mkEntry "e1" "p1" 100 15 100.
Definition second : WaitingListEntry := mkEntry "e2" "p2" 200 15 900000000100.

(** An ambulance with two waiting patients, reconciled. *)
Definition ambulance : Ambulance := mkAmbulance "A1" "Ambulance 1" [first; second].

(** An ambulance nobody waits for. *)
Definition idle : Ambulance := mkAmbulance "A2" "Ambulance 2" [].

(** A request with path parameter [entryId] and a body decoded to [entry]. *)
Definition request (entryId : string) (entry : WaitingListEntry) : Context :=
  mkContext entryId (Bound entry).

(** A driver without faults, and a store that holds the two ambulances. *)
Definition driver : db_service.Driver := db_service.mkDriver (inl 1%nat) None None.
Definition store : db_service.Store (DocType := Ambulance) :=
  (db_service.mkSvc None, [ambulance; idle]).

End sample.

(** ** [connect] under concurrent callers *)

(** The callers of [connect] (lines 115-148) of one [mongoSvc], interleaved.
    The steps are the operations on what the callers share: the atomic
    pointer [this.client], the mutex [this.clientLock], and the driver's
    [mongo.Connect].  Atomic loads and stores and the mutex are sequentially
    consistent, so a run is a sequence of such steps, one caller at a
    time. *)
Module concurrent.
Import db_service.

(** Where a caller stands: the operation it performs next. *)
Inductive Pc : Type :=
| AtLoad                        (* line 119, [this.client.Load()], optimistic check *)
| AtLock                        (* line 124, [this.clientLock.Lock()] *)
| AtLoadLocked                  (* line 127, [this.client.Load()], pessimistic check *)
| AtConnect                     (* line 142, [mongo.Connect(...)] *)
| AtStore (c : Client)          (* line 145, [this.client.Store(client)] *)
| AtUnlock (r : Client + error) (* line 125, the deferred [Unlock()], returning [r] *)
| Returned (r : Client + error).

(** The shared state, the callers (numbered), and two counters of the
    driver: the clients it has constructed and the constructions that
    failed.  The [n]-th constructed client is the handle [n]. *)
Record State : Type := mkState {
  cached : option Client;
  locked : bool;
  constructed : nat;
  failed : nat;
  callers : nat → Pc
}.

(** Every caller is about to enter [connect]; no client is cached. *)
Definition init : State := mkState None false 0 0 (λ _, AtLoad).

Definition move (i : nat) (pc : Pc) (callers : nat → Pc) : nat → Pc :=
  λ j, if decide (j = i) then pc else callers j.

(** One step of caller [i]; [fault] is the error of [mongo.Connect], should
    the step be that call.  [None]: the caller cannot move (the mutex is
    taken, or the caller has returned). *)
Definition step (i : nat) (fault : option string) (s : State) : option State :=
  let '(mkState client locked constructed failed callers) := s in
  match callers i with
  | AtLoad =>
      match client with
      | Some c => Some (mkState client locked constructed failed
                          (move i (Returned (inl c)) callers))
      | None => Some (mkState client locked constructed failed (move i AtLock callers))
      end
  | AtLock =>
      if locked then None
      else Some (mkState client true constructed failed (move i AtLoadLocked callers))
  | AtLoadLocked =>
      match client with
      | Some c => Some (mkState client locked constructed failed
                          (move i (AtUnlock (inl c)) callers))
      | None => Some (mkState client locked constructed failed (move i AtConnect callers))
      end
  | AtConnect =>
      match fault with
      | Some err =>
          Some (mkState client locked constructed (S failed)
                  (move i (AtUnlock (inr (ErrOther err))) callers))
      | None =>
          Some (mkState client locked (S constructed) failed
                  (move i (AtStore (S constructed)) callers))
      end
  | AtStore c =>
      Some (mkState (Some c) locked constructed failed (move i (AtUnlock (inl c)) callers))
  | AtUnlock r =>
      Some (mkState client false constructed failed (move i (Returned r) callers))
  | Returned _ => None
  end.

(** A run: the steps of a schedule, in order. *)
Fixpoint run (schedule : list (nat * option string)) (s : State) : option State :=
  match schedule with
  | [] => Some s
  | (i, fault) :: schedule' =>
      match step i fault s with
      | Some s' => run schedule' s'
      | None => None
      end
  end.

(** Between [Lock] and [Unlock]. *)
Definition holds_lock (pc : Pc) : bool :=
  match pc with
  | AtLoadLocked | AtConnect | AtStore _ | AtUnlock _ => true
  | AtLoad | AtLock | Returned _ => false
  end.

(** What is known of a caller at each point. *)
Definition caller_ok (s : State) (pc : Pc) : Prop :=
  match pc with
  | AtLoad | AtLock | AtLoadLocked => True
  | AtConnect => cached s = None ∧ constructed s = 0%nat
  | AtStore c => cached s = None ∧ constructed s = 1%nat ∧ c = 1%nat
  | AtUnlock (inl c) | Returned (inl c) => cached s = Some c
  | AtUnlock (inr _) | Returned (inr _) => (0 < failed s)%nat
  end.

(** The invariant of the runs from [init]. *)
Record Inv (s : State) : Prop := mkInv {
  inv_callers : ∀ i, caller_ok s (callers s i);
  inv_locked : ∀ i, holds_lock (callers s i) = true → locked s = true;
  inv_exclusive : ∀ i j,
    holds_lock (callers s i) = true → holds_lock (callers s j) = true → i = j;
  inv_holder : locked s = true → ∃ i, holds_lock (callers s i) = true;
  inv_cached : ∀ c, cached s = Some c → c = 1%nat ∧ constructed s = 1%nat;
  inv_constructed :
    constructed s = 0%nat
    ∨ (constructed s = 1%nat
       ∧ (cached s = Some 1%nat ∨ ∃ i, callers s i = AtStore 1%nat))
}.

(** Three callers race: 0 and 1 miss the cache, 1 takes the mutex and
    constructs the client while 0 waits; 2 arrives once the client is
    stored. *)
Definition race : list (nat * option string) :=
  [(0, None); (1, None); (1, None); (1, None); (1, None); (1, None);
   (2, None); (1, None); (0, None); (0, None); (0, None)]%nat.

End concurrent.

(** ** Configuration and life cycle of the store, [mongo_svc.go] *)

Module mongo_svc.
Import db_service.

(** [MongoServiceConfig], lines 35-43.  [ServerPort] is an [int];
    [Timeout] a [time.Duration], a number of nanoseconds in 64 bits. *)
Record MongoServiceConfig : Type := mkConfig {
  ServerHost : string;
  ServerPort : Z;
  UserName : string;
  Password : string;
  DbName : string;
  Collection : string;
  Timeout : Z
}.

(** [time.Second], in nanoseconds. *)
Definition Second : Z := 1000000000.

(** Signed 64-bit wrap-around, the arithmetic of [time.Duration]. *)
Definition wrap64 (z : Z) : Z := (z + 2 ^ 63) mod 2 ^ 64 - 2 ^ 63.

Section NewMongoService.

(** [strconv.Atoi], a function of the Go library: the integer a string
    denotes, [None] when it returns an error. *)
Variable Atoi : string → option Z.

(** The environment of the process; [os.LookupEnv] is the lookup. *)
Variable env : gmap string string.

(** The closure [enviro], lines 54-59. *)
Definition enviro (name defaultValue : string) : string :=
  match env !! name with
  | Some value => value
  | None => defaultValue
  end.

(** [NewMongoService], lines 51-113: the configuration the service keeps.
    (The log lines are left out; the cached client starts as [nil].) *)
Definition NewMongoService (config : MongoServiceConfig) : MongoServiceConfig * mongoSvc :=
  let host := if bool_decide (ServerHost config = "")
              then enviro "AMBULANCE_API_MONGODB_HOST" "localhost"
              else ServerHost config in
  let port := if bool_decide (ServerPort config = 0)
              then match Atoi (enviro "AMBULANCE_API_MONGODB_PORT" "27017") with
                   | Some port => port
                   | None => 27017
                   end
              else ServerPort config in
  let user := if bool_decide (UserName config = "")
              then enviro "AMBULANCE_API_MONGODB_USERNAME" ""
              else UserName config in
  let password := if bool_decide (Password config = "")
                  then enviro "AMBULANCE_API_MONGODB_PASSWORD" ""
                  else Password config in
  let db := if bool_decide (DbName config = "")
            then enviro "AMBULANCE_API_MONGODB_DATABASE" "milung-ambulance-wl"
            else DbName config in
  let collection := if bool_decide (Collection config = "")
                    then enviro "AMBULANCE_API_MONGODB_COLLECTION" "ambulance"
                    else Collection config in
  let timeout := if bool_decide (Timeout config = 0)
                 then match Atoi (enviro "AMBULANCE_API_MONGODB_TIMEOUT_SECONDS" "10") with
                      | Some seconds => wrap64 (seconds * Second)
                      | None => 10 * Second
                      end
                 else Timeout config in
  (mkConfig host port user password db collection timeout, mkSvc None).

End NewMongoService.

(** [Disconnect], lines 150-168, run by one caller at a time.  [fault] is
    the error of the driver's [client.Disconnect], should it be called.  The
    result: the error returned, the client the driver was asked to
    disconnect, and the service.  The deferred [Store(nil)] of line 160 runs
    also when the driver fails. *)
Definition Disconnect (fault : option string) (this : mongoSvc)
  : option error * option Client * mongoSvc :=
  match client this with
  | Some _ =>
      match client this with
      | Some c => (ErrOther <$> fault, Some c, mkSvc None)
      | None => (None, None, mkSvc None)
      end
  | None => (None, None, this)
  end.

End mongo_svc.

(** ** Measures of a run of [connect] *)

Module concurrent_measure.
Import concurrent.

(** The number of operations a caller has still to perform at most. *)
Definition remaining (pc : Pc) : nat :=
  match pc with
  | AtLoad => 6
  | AtLock => 5
  | AtLoadLocked => 4
  | AtConnect => 3
  | AtStore _ => 2
  | AtUnlock _ => 1
  | Returned _ => 0
  end.

(** The number of steps of caller [i] in a schedule. *)
Definition steps_of (i : nat) (schedule : list (nat * option string)) : nat :=
  length (filter (λ p, p.1 = i) schedule).

(** What the driver tells a caller that runs alone from the state [s]. *)
Definition driver_of (fault : option string) (s : State) : db_service.Driver :=
  db_service.mkDriver
    (match fault with
     | None => inl (S (constructed s))
     | Some err => inr err
     end) None None.

End concurrent_measure.

(** ** Sample configuration *)

Module sample_config.

(** A parser of decimal digits for the samples: [Some n] for a non-empty
    string of digits. *)
Fixpoint digits (acc : Z) (s : string) : option Z :=
  match s with
  | EmptyString => Some acc
  | String a s' =>
      let d := Z.of_N (Ascii.N_of_ascii a) - 48 in
      if (0 <=? d) && (d <=? 9) then digits (10 * acc + d) s' else None
  end.

Definition Atoi (s : string) : option Z :=
  match s with
  | EmptyString => None
  | _ => digits 0 s
  end.

(** A configuration with every field set. *)
Definition full : mongo_svc.MongoServiceConfig :=
  mongo_svc.mkConfig "db.example.org" 27018 "root" "secret" "hospital" "ambulances"
    (5 * mongo_svc.Second).

(** An environment that sets the port and the timeout. *)
Definition environment : gmap string string :=
  <["AMBULANCE_API_MONGODB_PORT" := "27019"]>
    (<["AMBULANCE_API_MONGODB_TIMEOUT_SECONDS" := "0"]> ∅).

End sample_config.

(** * Properties *)

(** ** [slices.IndexFunc] *)

Section IndexFunc_facts.
Context {A : Type} (f : A → bool).

Lemma IndexFunc_from_cases (i : Z) (s : list A) :
  (slices.IndexFunc_from i f s = -1 ∧ Forall (λ x, f x = false) s)
  ∨ (∃ (n : nat) (x : A),
        slices.IndexFunc_from i f s = i + Z.of_nat n
        ∧ s !! n = Some x ∧ f x = true
        ∧ Forall (λ y, f y = false) (take n s)).
Proof.
  revert i. induction s as [|a s IH]; intros i; simpl.
  - left. by split.
  - destruct (f a) eqn:Hfa.
    + right. exists 0%nat, a. repeat split; [lia | done | constructor].
    + destruct (IH (i + 1)) as [[-> Hall] | (n & x & -> & Hn & Hx & Hpre)].
      * left. split; [done | by constructor].
      * right. exists (S n), x. repeat split; [lia | done | done |].
        simpl. by constructor.
Qed.

Lemma IndexFunc_cases (s : list A) :
  (slices.IndexFunc s f = -1 ∧ Forall (λ x, f x = false) s)
  ∨ (∃ (n : nat) (x : A),
        slices.IndexFunc s f = Z.of_nat n
        ∧ s !! n = Some x ∧ f x = true
        ∧ Forall (λ y, f y = false) (take n s)).
Proof.
  unfold slices.IndexFunc.
  destruct (IndexFunc_from_cases 0 s) as [? | (n & x & Hi & ?)]; [by left |].
  right. exists n, x. by rewrite Hi, Z.add_0_l.
Qed.

Lemma IndexFunc_none (s : list A) :
  Forall (λ x, f x = false) s → slices.IndexFunc s f = -1.
Proof.
  intros Hall. destruct (IndexFunc_cases s) as [[? _] | (n & x & _ & Hn & Hx & _)]; [done |].
  rewrite Forall_forall in Hall. apply list_elem_of_lookup_2 in Hn.
  apply Hall in Hn. congruence.
Qed.

Lemma IndexFunc_some (s : list A) (x : A) :
  x ∈ s → f x = true → 0 ≤ slices.IndexFunc s f.
Proof.
  intros Hin Hx. destruct (IndexFunc_cases s) as [[_ Hall] | (n & ? & -> & _)]; [| lia].
  rewrite Forall_forall in Hall. apply Hall in Hin. congruence.
Qed.

End IndexFunc_facts.

(** ** The reconciler *)

Module reconciler_facts.
Import reconciler.

Lemma insert_by_arrival_perm e l : insert_by_arrival e l ≡ₚ e :: l.
Proof.
  induction l as [|x l IH]; simpl; [done |].
  destruct (WaitingSince e <=? WaitingSince x); [done |].
  rewrite IH. apply Permutation_swap.
Qed.

Lemma sort_by_arrival_perm l : sort_by_arrival l ≡ₚ l.
Proof.
  induction l as [|x l IH]; simpl; [done |].
  fold (sort_by_arrival l). by rewrite insert_by_arrival_perm, IH.
Qed.

(** A list already in order is left as it is. *)
Lemma sort_by_arrival_sorted l : by_arrival l → sort_by_arrival l = l.
Proof.
  induction 1 as [|x l Hl IH Hhd]; simpl; [done |].
  fold (sort_by_arrival l). rewrite IH.
  destruct Hhd as [|y l' Hxy]; simpl; [done |].
  by rewrite (proj2 (Z.leb_le _ _) Hxy).
Qed.

Lemma insert_by_arrival_sorted e l : by_arrival l → by_arrival (insert_by_arrival e l).
Proof.
  induction 1 as [|x l Hl IH Hhd]; simpl.
  - repeat constructor.
  - destruct (WaitingSince e <=? WaitingSince x) eqn:Hle.
    + apply Z.leb_le in Hle. repeat constructor; done.
    + apply Z.leb_gt in Hle. constructor; [done |].
      destruct Hhd as [|y l' Hxy]; simpl.
      * constructor. lia.
      * destruct (WaitingSince e <=? WaitingSince y); constructor; lia.
Qed.

Lemma sort_by_arrival_by_arrival l : by_arrival (sort_by_arrival l).
Proof.
  induction l as [|x l IH]; simpl; [constructor |].
  by apply insert_by_arrival_sorted.
Qed.

(** Scheduling touches [EstimatedStart] only. *)
Lemma schedule_supplied free l : supplied <$> schedule free l = supplied <$> l.
Proof.
  revert free. induction l as [|e l IH]; intros free; simpl; [done |].
  by rewrite IH.
Qed.

Lemma schedule_length free l : length (schedule free l) = length l.
Proof.
  revert free. induction l as [|e l IH]; intros free; simpl; [done |].
  by rewrite IH.
Qed.

Lemma schedule_by_arrival free l : by_arrival l → by_arrival (schedule free l).
Proof.
  intros Hl. revert free. induction Hl as [|x l Hl IH Hhd]; intros free; simpl.
  - constructor.
  - constructor; [apply IH |].
    destruct Hhd as [|y l' Hxy]; simpl; constructor. done.
Qed.

Lemma schedule_idempotent free l : schedule free (schedule free l) = schedule free l.
Proof.
  revert free. induction l as [|e l IH]; intros free; simpl; [done |].
  by rewrite IH.
Qed.

Lemma Reconcile_idempotent l : Reconcile (Reconcile l) = Reconcile l.
Proof.
  unfold Reconcile.
  rewrite (sort_by_arrival_sorted (schedule None (sort_by_arrival l))).
  - apply schedule_idempotent.
  - apply schedule_by_arrival, sort_by_arrival_by_arrival.
Qed.

(** The reconciled list satisfies the ordering invariant. *)
Lemma Reconcile_by_arrival l : by_arrival (Reconcile l).
Proof. apply schedule_by_arrival, sort_by_arrival_by_arrival. Qed.

Lemma Reconcile_supplied l : supplied <$> Reconcile l ≡ₚ supplied <$> l.
Proof.
  unfold Reconcile. rewrite schedule_supplied. apply fmap_Permutation, sort_by_arrival_perm.
Qed.

Lemma Reconcile_length l : length (Reconcile l) = length l.
Proof.
  rewrite <- (length_fmap supplied (Reconcile l)), (Reconcile_supplied l).
  apply length_fmap.
Qed.

Lemma Reconcile_identity l : identity <$> Reconcile l ≡ₚ identity <$> l.
Proof.
  change identity with ((λ p : string * string * Time * Z, (p.1.1.1, p.1.1.2)) ∘ supplied).
  rewrite !list_fmap_compose. apply fmap_Permutation, Reconcile_supplied.
Qed.

Lemma Reconcile_Id l : Id <$> Reconcile l ≡ₚ Id <$> l.
Proof.
  change Id with ((λ p : string * string * Time * Z, p.1.1.1) ∘ supplied).
  rewrite !list_fmap_compose. apply fmap_Permutation, Reconcile_supplied.
Qed.

Lemma Reconcile_PatientId l : PatientId <$> Reconcile l ≡ₚ PatientId <$> l.
Proof.
  change PatientId with ((λ p : string * string * Time * Z, p.1.1.2) ∘ supplied).
  rewrite !list_fmap_compose. apply fmap_Permutation, Reconcile_supplied.
Qed.

Lemma Reconcile_unique l : unique_entries l → unique_entries (Reconcile l).
Proof.
  intros [HId HPat]. split.
  - by rewrite Reconcile_Id.
  - by rewrite Reconcile_PatientId.
Qed.

(** Every reconciled entry is an entry of the input, up to [EstimatedStart]. *)
Lemma Reconcile_elem l e :
  e ∈ Reconcile l → ∃ e0, e0 ∈ l ∧ supplied e0 = supplied e.
Proof.
  intros He.
  assert (supplied e ∈ supplied <$> l) as Hin.
  { rewrite <- Reconcile_supplied. by apply list_elem_of_fmap_2. }
  apply list_elem_of_fmap in Hin as (e0 & Heq & Hin). eauto.
Qed.

Lemma Reconcile_elem_rev l e0 :
  e0 ∈ l → ∃ e, e ∈ Reconcile l ∧ supplied e = supplied e0.
Proof.
  intros He.
  assert (supplied e0 ∈ supplied <$> Reconcile l) as Hin.
  { rewrite Reconcile_supplied. by apply list_elem_of_fmap_2. }
  apply list_elem_of_fmap in Hin as (e & Heq & Hin). eauto.
Qed.

End reconciler_facts.

(** C6 (reconciler as modelled from the spec): [Reconcile] is idempotent, and
    the set of [{Id, PatientId}] pairs of [Reconcile L] is the set of those of
    [L]. *)
Theorem Reconcile_idempotent_identity_preserving (L : list WaitingListEntry) :
  Reconcile (Reconcile L) = Reconcile L
  ∧ list_to_set (identity <$> Reconcile L)
    =@{gset (string * string)} list_to_set (identity <$> L).
Proof.
  split.
  - apply reconciler_facts.Reconcile_idempotent.
  - apply list_to_set_perm_L, reconciler_facts.Reconcile_identity.
Qed.

(** ** [CreateWaitingListEntry] *)

Section create_facts.
Context (c : Context) (ambulance : Ambulance) (w : World) (entry : WaitingListEntry).
Hypothesis Hbody : ShouldBindJSON c = Bound entry.
Hypothesis Hpatient : PatientId entry ≠ "".

(** A validated request runs lines 37-72 on [created entry w]. *)
Lemma Create_validated :
  CreateWaitingListEntry c ambulance w =
  (let entry := created entry w in
   if 0 <=? slices.IndexFunc (WaitingList ambulance) (conflicts entry) then
     Return None (H http.StatusConflict "Entry already exists" None) http.StatusConflict
   else
     let l := Reconcile (WaitingList ambulance ++ [entry]) in
     let entryIndx := slices.IndexFunc l (λ waiting, bool_decide (Id entry = Id waiting)) in
     if entryIndx <? 0 then
       Return None (H http.StatusInternalServerError "Failed to save entry" None)
         http.StatusInternalServerError
     else match l !! Z.to_nat entryIndx with
          | Some stored =>
              Return (Some (set_WaitingList l ambulance)) (RespEntry stored) http.StatusOK
          | None => Panic
          end,
   world_after_create entry w).
Proof.
  unfold CreateWaitingListEntry. rewrite Hbody.
  rewrite bool_decide_eq_false_2 by done.
  unfold created, world_after_create, placeholder, conflicts, time.Before.
  clear Hbody Hpatient.
  destruct w as [clk n us k], entry as [i p ws d es]; simpl in *.
  unfold mbind, mret, Eff_bind, Eff_ret, time_Now, uuid_NewString,
    reconcileWaitingList, set_WaitingList, set_EstimatedDurationMinutes,
    set_WaitingSince, set_Id. simpl.
  destruct (bool_decide (i = "") || bool_decide (i = "@new")); simpl;
    destruct (ws <? clk n); simpl;
    destruct (d <=? 0); simpl.
  all: repeat case_match; congruence.
Qed.

Lemma conflicts_true x :
  conflicts (created entry w) x = true
  ↔ Id x = Id (created entry w) ∨ PatientId x = PatientId entry.
Proof.
  unfold conflicts. rewrite orb_true_iff, !bool_decide_eq_true. simpl.
  split; (intros [?|?]; [left | right]; done).
Qed.

Lemma Create_conflict :
  in_conflict ambulance entry w →
  CreateWaitingListEntry c ambulance w =
  (Return None (H http.StatusConflict "Entry already exists" None) http.StatusConflict,
   world_after_create entry w).
Proof.
  intros (x & Hin & Hx). rewrite Create_validated. cbv zeta.
  apply conflicts_true in Hx.
  pose proof (IndexFunc_some _ _ _ Hin Hx) as Hidx.
  by rewrite (proj2 (Z.leb_le _ _) Hidx).
Qed.

Lemma Create_no_conflict :
  ¬ in_conflict ambulance entry w →
  ∃ stored,
    CreateWaitingListEntry c ambulance w =
    (Return (Some (set_WaitingList (Reconcile (WaitingList ambulance ++ [created entry w]))
                     ambulance))
       (RespEntry stored) http.StatusOK,
     world_after_create entry w)
    ∧ stored ∈ Reconcile (WaitingList ambulance ++ [created entry w])
    ∧ supplied stored = supplied (created entry w).
Proof.
  intros Hfree. rewrite Create_validated. cbv zeta.
  assert (Forall (λ x, conflicts (created entry w) x = false) (WaitingList ambulance)) as Hall.
  { apply Forall_forall. intros x Hin.
    destruct (conflicts (created entry w) x) eqn:Hx; [| done].
    exfalso. apply Hfree. exists x. split; [done |]. by apply conflicts_true. }
  rewrite (IndexFunc_none _ _ Hall). simpl (0 <=? -1).
  destruct (reconciler_facts.Reconcile_elem_rev
              (WaitingList ambulance ++ [created entry w]) (created entry w))
    as (e & He & Heq).
  { apply elem_of_app. right. by apply list_elem_of_singleton. }
  set (l := Reconcile (WaitingList ambulance ++ [created entry w])) in *.
  set (f := λ waiting, bool_decide (Id (created entry w) = Id waiting)).
  destruct (IndexFunc_cases f l) as [[_ Hnone] | (n & stored & Hi & Hn & Hf & _)].
  { rewrite Forall_forall in Hnone. apply Hnone in He. unfold f in He.
    apply bool_decide_eq_false in He. destruct He.
    unfold supplied in Heq. congruence. }
  rewrite Hi. rewrite (proj2 (Z.ltb_ge _ _)) by lia.
  rewrite Nat2Z.id, Hn. exists stored. split; [done |].
  assert (stored ∈ l) as Hin by (by eapply list_elem_of_lookup_2).
  split; [done |].
  apply reconciler_facts.Reconcile_elem in Hin as (e0 & Hin0 & Heq0).
  rewrite <- Heq0. apply elem_of_app in Hin0 as [Hin0 | Hin0].
  - exfalso. apply Hfree. exists e0. split; [done |]. left.
    unfold f in Hf. apply bool_decide_eq_true in Hf.
    unfold supplied in Heq0. congruence.
  - apply list_elem_of_singleton in Hin0. by subst.
Qed.

End create_facts.

Lemma in_conflict_dec ambulance entry w :
  in_conflict ambulance entry w ∨ ¬ in_conflict ambulance entry w.
Proof.
  destruct (IndexFunc_cases (conflicts (created entry w)) (WaitingList ambulance))
    as [[_ Hall] | (n & x & _ & Hn & Hx & _)].
  - right. intros (x & Hin & Hx). rewrite Forall_forall in Hall.
    apply Hall in Hin. apply conflicts_true in Hx. congruence.
  - left. exists x. split; [by eapply list_elem_of_lookup_2 | by apply conflicts_true].
Qed.

(** ** The request wrapper and the store *)

Section documents_facts.
Context {DocType : Type} (doc_id : DocType → string).

Lemma FindOne_Some coll id i d :
  db_service.FindOne doc_id coll id = Some (i, d) ↔
  coll !! i = Some d ∧ doc_id d = id
  ∧ Forall (λ d', doc_id d' ≠ id) (take i coll).
Proof.
  revert i. induction coll as [|a coll IH]; intros i; simpl.
  - split; [done | by intros [? _]].
  - case_bool_decide as Ha.
    + split.
      * intros [= <- <-]. repeat split; [done | constructor].
      * intros (Hi & Hd & Hpre). destruct i as [|i]; simpl in *.
        { by simplify_eq. }
        { apply Forall_cons in Hpre as [? _]. done. }
    + destruct (db_service.FindOne doc_id coll id) as [[j d']|]; simpl.
      * split.
        { intros [= <- <-]. destruct (proj1 (IH j) eq_refl) as (? & ? & ?).
          repeat split; [done | done |]. simpl. by constructor. }
        { intros (Hi & Hd & Hpre). destruct i as [|i]; simpl in *; [by simplify_eq |].
          apply Forall_cons in Hpre as [_ Hpre].
          assert (Some (j, d') = Some (i, d)) as [= -> ->]; [| done].
          by apply IH. }
      * split; [done |].
        intros (Hi & Hd & Hpre). destruct i as [|i]; simpl in *; [by simplify_eq |].
        apply Forall_cons in Hpre as [_ Hpre].
        assert (None = Some (i, d)) as [=]. by apply IH.
Qed.

Lemma FindOne_None coll id :
  db_service.FindOne doc_id coll id = None ↔ Forall (λ d, doc_id d ≠ id) coll.
Proof.
  induction coll as [|a coll IH]; simpl; [done |].
  case_bool_decide as Ha.
  - split; [done |]. intros [? _]%Forall_cons. done.
  - destruct (db_service.FindOne doc_id coll id) as [[j d']|]; simpl.
    + split; [done |]. intros [_ Hall]%Forall_cons. by apply IH in Hall.
    + split; [| done]. intros _. constructor; [done | by apply IH].
Qed.

Lemma connect_healthy drv this :
  db_service.healthy drv →
  ∃ cl this', db_service.connect drv this = (inl cl, this').
Proof.
  intros [[c Hc] _]. unfold db_service.connect.
  destruct (db_service.client this); [by eauto |]. rewrite Hc. eauto.
Qed.

(** Looking a document up leaves the collection as it is. *)
Lemma FindDocument_collection drv this coll id :
  (db_service.FindDocument doc_id drv (this, coll) id).2.2 = coll.
Proof.
  unfold db_service.FindDocument.
  destruct (db_service.connect drv this) as [[cl | err] this']; [| done].
  destruct (db_service.FindOne_fault drv); [done |].
  by destruct (db_service.FindOne doc_id coll id) as [[i d]|].
Qed.

End documents_facts.

(** A handler that returns a [nil] ambulance leaves the collection as it is,
    whatever the store does. *)
Lemma updateAmbulanceFunc_nil on_find on_update ambulanceId updater c st w :
  (∀ ambulance, ∃ response status w',
      updater c ambulance w = (Return None response status, w')) →
  (updateAmbulanceFunc on_find on_update ambulanceId updater c st w).1.2.2 = st.2.
Proof.
  intros Hnil. unfold updateAmbulanceFunc. destruct st as [this coll].
  pose proof (FindDocument_collection Ambulance_Id on_find this coll ambulanceId) as Hcoll.
  destruct (db_service.FindDocument Ambulance_Id on_find (this, coll) ambulanceId)
    as [[ambulance | err] [this' coll']]; simpl in *; [| done].
  destruct (Hnil ambulance) as (response & status & w' & ->). done.
Qed.

(** Its reply is the reply of the request. *)
Lemma updateAmbulanceFunc_reply on_find on_update ambulanceId updater c st w
    ambulance st' response status w' :
  db_service.FindDocument Ambulance_Id on_find st ambulanceId = (inl ambulance, st') →
  updater c ambulance w = (Return None response status, w') →
  updateAmbulanceFunc on_find on_update ambulanceId updater c st w
  = (Replied response status, st', w').
Proof. intros Hfind Hrun. unfold updateAmbulanceFunc. by rewrite Hfind, Hrun. Qed.

(** ** Claims about [CreateWaitingListEntry] *)

(** C1 (as stated, refuted): a request with a [WaitingSince] in the future
    (5000, while the clock reads 1000 and 1001) is stored with that future
    instant, and a request with a [WaitingSince] in the past (500) is stored
    with the second reading of the clock, not with the supplied value. *)
Lemma Create_keeps_future_WaitingSince :
  (CreateWaitingListEntry (sample.request "" (mkEntry "" "p3" 5000 0 0)) sample.idle
     sample.world).1
  = Return (Some (mkAmbulance "A2" "Ambulance 2" [mkEntry "6ba7b810-9dad" "p3" 5000 15 5000]))
      (RespEntry (mkEntry "6ba7b810-9dad" "p3" 5000 15 5000)) 200
  ∧ clock sample.world 0 = 1000 ∧ clock sample.world 1 = 1001
  ∧ (CreateWaitingListEntry (sample.request "" (mkEntry "" "p3" 500 0 0)) sample.idle
       sample.world).1
    = Return (Some (mkAmbulance "A2" "Ambulance 2" [mkEntry "6ba7b810-9dad" "p3" 1001 15 1001]))
        (RespEntry (mkEntry "6ba7b810-9dad" "p3" 1001 15 1001)) 200.
Proof.
  repeat split.
Qed.

(** C1 (amended): a validated request without conflict stores an entry whose
    [WaitingSince] is the second reading of the clock when the supplied
    instant is strictly before the first reading (the zero instant of a
    missing value included), and the supplied instant otherwise, even one in
    the future; so it is never before the first reading, the clock not
    running backwards. *)
Theorem Create_WaitingSince_not_before_now
    (c : Context) (ambulance : Ambulance) (w : World) (entry : WaitingListEntry) :
  ShouldBindJSON c = Bound entry →
  PatientId entry ≠ "" →
  ¬ in_conflict ambulance entry w →
  let now := clock w (now_calls w) in
  let now' := clock w (S (now_calls w)) in
  ∃ updated stored w',
    CreateWaitingListEntry c ambulance w
    = (Return (Some updated) (RespEntry stored) http.StatusOK, w')
    ∧ stored ∈ WaitingList updated
    ∧ (WaitingSince entry < now → WaitingSince stored = now')
    ∧ (now ≤ WaitingSince entry → WaitingSince stored = WaitingSince entry)
    ∧ (now ≤ now' → now ≤ WaitingSince stored).
Proof.
  intros Hbody Hpatient Hfree now now'.
  destruct (Create_no_conflict c ambulance w entry Hbody Hpatient Hfree)
    as (stored & Hrun & Hin & Heq).
  eexists _, stored, _. split; [exact Hrun |]. split; [exact Hin |].
  assert (WaitingSince stored = WaitingSince (created entry w)) as ->.
  { unfold supplied in Heq. congruence. }
  simpl. fold now now'.
  destruct (WaitingSince entry <? now) eqn:Hlt; [apply Z.ltb_lt in Hlt | apply Z.ltb_ge in Hlt].
  all: repeat split; intros; lia.
Qed.

Lemma Create_WaitingSince_not_before_now_witness :
  ∃ updated stored w',
    CreateWaitingListEntry (sample.request "" (mkEntry "" "p3" 0 0 0)) sample.idle sample.world
    = (Return (Some updated) (RespEntry stored) http.StatusOK, w')
    ∧ stored ∈ WaitingList updated
    ∧ (0 < 1000 → WaitingSince stored = 1001)
    ∧ (1000 ≤ 0 → WaitingSince stored = 0)
    ∧ (1000 ≤ 1001 → 1000 ≤ WaitingSince stored).
Proof.
  apply (Create_WaitingSince_not_before_now
           (sample.request "" (mkEntry "" "p3" 0 0 0)) sample.idle sample.world
           (mkEntry "" "p3" 0 0 0)).
  - reflexivity.
  - discriminate.
  - intros (x & Hin & _). inversion Hin.
Defined.

(** C10: in a validated create request a UUID is drawn, and becomes the id of
    the entry, exactly when the supplied [Id] is empty or ["@new"]; any other
    supplied [Id] is the id of the stored entry as it is. *)
Theorem Create_Id_generated_iff_placeholder
    (c : Context) (ambulance : Ambulance) (w : World) (entry : WaitingListEntry) :
  ShouldBindJSON c = Bound entry →
  PatientId entry ≠ "" →
  let run := CreateWaitingListEntry c ambulance w in
  ((Id entry = "" ∨ Id entry = "@new") ↔ uuid_calls run.2 = S (uuid_calls w))
  ∧ (¬ (Id entry = "" ∨ Id entry = "@new") ↔ uuid_calls run.2 = uuid_calls w)
  ∧ (∀ updated response status,
       run.1 = Return (Some updated) response status →
       ∃ stored, response = RespEntry stored ∧ stored ∈ WaitingList updated
         ∧ ((Id entry = "" ∨ Id entry = "@new") → Id stored = uuid_source w (uuid_calls w))
         ∧ (¬ (Id entry = "" ∨ Id entry = "@new") → Id stored = Id entry))
  ∧ (¬ in_conflict ambulance entry w →
       ∃ updated stored, run.1 = Return (Some updated) (RespEntry stored) http.StatusOK).
Proof.
  intros Hbody Hpatient run.
  assert ((Id entry = "" ∨ Id entry = "@new") ↔ placeholder (Id entry) = true) as Hph.
  { unfold placeholder. by rewrite orb_true_iff, !bool_decide_eq_true. }
  assert (run.2 = world_after_create entry w) as Hw.
  { unfold run. destruct (in_conflict_dec ambulance entry w) as [Hc | Hfree].
    - by rewrite (Create_conflict c ambulance w entry Hbody Hpatient Hc).
    - destruct (Create_no_conflict c ambulance w entry Hbody Hpatient Hfree)
        as (stored & -> & _). done. }
  rewrite Hw, Hph. simpl.
  split; [| split; [| split]].
  - destruct (placeholder (Id entry)); split; (done || lia).
  - destruct (placeholder (Id entry)); split; (done || lia).
  - intros updated response status Hrun. unfold run in Hrun.
    destruct (in_conflict_dec ambulance entry w) as [Hc | Hfree].
    { by rewrite (Create_conflict c ambulance w entry Hbody Hpatient Hc) in Hrun. }
    destruct (Create_no_conflict c ambulance w entry Hbody Hpatient Hfree)
      as (stored & Hrun' & Hin & Heq).
    rewrite Hrun' in Hrun. simpl in Hrun. injection Hrun as <- <- <-.
    exists stored. split; [done |]. split; [done |].
    assert (Id stored = Id (created entry w)) as -> by (unfold supplied in Heq; congruence).
    simpl. destruct (placeholder (Id entry)); split; intros Hd; try done.
    + destruct Hd. by apply Hph.
    + by apply Hph in Hd.
  - intros Hfree. unfold run.
    destruct (Create_no_conflict c ambulance w entry Hbody Hpatient Hfree)
      as (stored & -> & _). eauto.
Qed.

Lemma Create_Id_generated_iff_placeholder_witness :
  let run := CreateWaitingListEntry (sample.request "" (mkEntry "@new" "p3" 0 0 0))
               sample.ambulance sample.world in
  uuid_calls run.2 = 1%nat
  ∧ ∃ updated stored, run.1 = Return (Some updated) (RespEntry stored) http.StatusOK
                      ∧ Id stored = "6ba7b810-9dad".
Proof.
  pose proof (Create_Id_generated_iff_placeholder
                (sample.request "" (mkEntry "@new" "p3" 0 0 0))
                sample.ambulance sample.world (mkEntry "@new" "p3" 0 0 0)
                eq_refl ltac:(discriminate)) as (Hcalls & _ & Hid & _).
  split.
  - apply Hcalls. by right.
  - eexists _, _. split; [reflexivity |]. reflexivity.
Defined.

(** C5 (as stated, refuted): a request without [PatientId] whose [Id] is
    already in the list fails validation (400), not Conflict; and a request
    with the placeholder id ["@new"] succeeds although an entry with the id
    ["@new"] is in the list, because the id compared is the generated one. *)
Lemma Create_conflicting_Id_without_Conflict :
  (CreateWaitingListEntry (sample.request "" (mkEntry "e1" "" 0 0 0)) sample.ambulance
     sample.world).1
  = Return None (H 400 "Patient ID is required" None) 400
  ∧ (CreateWaitingListEntry (sample.request "" (mkEntry "@new" "p3" 0 0 0))
       (mkAmbulance "A1" "Ambulance 1" [mkEntry "@new" "p1" 100 15 100]) sample.world).1
    = Return
        (Some (mkAmbulance "A1" "Ambulance 1"
                 [mkEntry "@new" "p1" 100 15 100;
                  mkEntry "6ba7b810-9dad" "p3" 1001 15 900000000100]))
        (RespEntry (mkEntry "6ba7b810-9dad" "p3" 1001 15 900000000100)) 200.
Proof. split; reflexivity. Qed.

(** C5 (amended): a create request that passes validation (the body decodes
    and carries a [PatientId]) and whose id, after a placeholder is replaced
    by the generated id, or whose patient id is already in the list, is
    answered with Conflict (409); the handler hands no ambulance back, and the
    stored documents stay as they are. *)
Theorem Create_conflict_leaves_list_unchanged
    (c : Context) (ambulance : Ambulance) (w : World) (entry : WaitingListEntry) :
  ShouldBindJSON c = Bound entry →
  PatientId entry ≠ "" →
  in_conflict ambulance entry w →
  (∃ w', CreateWaitingListEntry c ambulance w
         = (Return None (H http.StatusConflict "Entry already exists" None)
              http.StatusConflict, w'))
  ∧ ∀ on_find on_update ambulanceId this coll st',
      db_service.FindDocument Ambulance_Id on_find (this, coll) ambulanceId
      = (inl ambulance, st') →
      ∃ this' w',
        updateAmbulanceFunc on_find on_update ambulanceId CreateWaitingListEntry c
          (this, coll) w
        = (Replied (H http.StatusConflict "Entry already exists" None) http.StatusConflict,
           (this', coll), w').
Proof.
  intros Hbody Hpatient Hconflict.
  pose proof (Create_conflict c ambulance w entry Hbody Hpatient Hconflict) as Hrun.
  split; [by eauto |].
  intros on_find on_update ambulanceId this coll st' Hfind.
  pose proof (FindDocument_collection Ambulance_Id on_find this coll ambulanceId) as Hcoll.
  rewrite Hfind in Hcoll. destruct st' as [this' coll']. simpl in Hcoll. subst coll'.
  exists this', (world_after_create entry w).
  by apply updateAmbulanceFunc_reply with ambulance.
Qed.

Lemma Create_conflict_leaves_list_unchanged_witness :
  ∃ this' w',
    updateAmbulanceFunc sample.driver sample.driver "A1" CreateWaitingListEntry
      (sample.request "" (mkEntry "" "p2" 0 0 0)) sample.store sample.world
    = (Replied (H http.StatusConflict "Entry already exists" None) http.StatusConflict,
       (this', [sample.ambulance; sample.idle]), w').
Proof.
  refine (proj2 (Create_conflict_leaves_list_unchanged
                   (sample.request "" (mkEntry "" "p2" 0 0 0)) sample.ambulance sample.world
                   (mkEntry "" "p2" 0 0 0) eq_refl _ _)
            sample.driver sample.driver "A1" (db_service.mkSvc None)
            [sample.ambulance; sample.idle]
            (db_service.mkSvc (Some 1%nat), [sample.ambulance; sample.idle]) eq_refl).
  - discriminate.
  - exists sample.second. split; [| by right].
    apply elem_of_cons. right. apply elem_of_cons. by left.
Defined.

(** ** The empty entry id *)

(** C9: with an empty path parameter [entryId], get-one, update and delete
    answer 400 (validation), never 404, hand no ambulance back, and the
    stored documents stay as they are. *)
Theorem empty_entryId_is_rejected (c : Context) (ambulance : Ambulance) (w : World) :
  Param_entryId c = "" →
  GetWaitingListEntry c ambulance w
  = (Return None (H http.StatusBadRequest "Entry ID is required" None)
       http.StatusBadRequest, w)
  ∧ DeleteWaitingListEntry c ambulance w
    = (Return None (H http.StatusBadRequest "Entry ID is required" None)
         http.StatusBadRequest, w)
  ∧ (∃ message err,
       UpdateWaitingListEntry c ambulance w
       = (Return None (H http.StatusBadRequest message err) http.StatusBadRequest, w))
  ∧ http.StatusBadRequest ≠ http.StatusNotFound
  ∧ ∀ handler,
      handler ∈ [GetWaitingListEntry; UpdateWaitingListEntry; DeleteWaitingListEntry] →
      ∀ on_find on_update ambulanceId st,
        let run := updateAmbulanceFunc on_find on_update ambulanceId handler c st w in
        run.1.2.2 = st.2
        ∧ ∀ st', db_service.FindDocument Ambulance_Id on_find st ambulanceId
                 = (inl ambulance, st') →
                 ∃ response, run = (Replied response http.StatusBadRequest, st', w).
Proof.
  intros Hempty.
  assert (∀ a, GetWaitingListEntry c a w
               = (Return None (H http.StatusBadRequest "Entry ID is required" None)
                    http.StatusBadRequest, w)) as Hget.
  { intros a. unfold GetWaitingListEntry. by rewrite Hempty. }
  assert (∀ a, DeleteWaitingListEntry c a w
               = (Return None (H http.StatusBadRequest "Entry ID is required" None)
                    http.StatusBadRequest, w)) as Hdelete.
  { intros a. unfold DeleteWaitingListEntry. by rewrite Hempty. }
  assert (∀ a, ∃ message err,
             UpdateWaitingListEntry c a w
             = (Return None (H http.StatusBadRequest message err)
                  http.StatusBadRequest, w)) as Hupdate.
  { intros a. unfold UpdateWaitingListEntry.
    destruct (ShouldBindJSON c) as [entry | err]; [rewrite Hempty |]; by eexists _, _. }
  split; [apply Hget |]. split; [apply Hdelete |]. split; [apply Hupdate |].
  split; [done |].
  intros handler Hhandler on_find on_update ambulanceId st run.
  assert (∀ a, ∃ response, handler c a w
                           = (Return None response http.StatusBadRequest, w)) as Hnil.
  { intros a. rewrite !elem_of_cons in Hhandler.
    destruct Hhandler as [-> | [-> | [-> | Hin]]]; [| | | by inversion Hin].
    - rewrite Hget. eauto.
    - destruct (Hupdate a) as (message & err & ->). eauto.
    - rewrite Hdelete. eauto. }
  split.
  - apply updateAmbulanceFunc_nil. intros a. destruct (Hnil a) as [response ->]. eauto.
  - intros st' Hfind. destruct (Hnil ambulance) as [response Hrun].
    exists response. by apply updateAmbulanceFunc_reply with ambulance.
Qed.

Lemma empty_entryId_is_rejected_witness :
  DeleteWaitingListEntry (sample.request "" sample.first) sample.ambulance sample.world
  = (Return None (H 400 "Entry ID is required" None) 400, sample.world)
  ∧ (updateAmbulanceFunc sample.driver sample.driver "A1" DeleteWaitingListEntry
       (sample.request "" sample.first) sample.store sample.world).1.2.2
    = [sample.ambulance; sample.idle].
Proof.
  pose proof (empty_entryId_is_rejected (sample.request "" sample.first) sample.ambulance
                sample.world eq_refl) as (_ & Hdelete & _ & _ & Hstore).
  split; [exact Hdelete |].
  refine (proj1 (Hstore DeleteWaitingListEntry _ sample.driver sample.driver "A1" sample.store)).
  apply elem_of_cons. right. apply elem_of_cons. right. apply elem_of_cons. by left.
Defined.

(** ** [UpdateWaitingListEntry] and [DeleteWaitingListEntry] *)

Section lookup_facts.
Context (c : Context) (ambulance : Ambulance) (w : World).
Hypothesis Hparam : Param_entryId c ≠ "".

(** The search of lines 91, 139 and 187. *)
Lemma entry_lookup :
  (∃ x, x ∈ WaitingList ambulance ∧ Id x = Param_entryId c) →
  ∃ (i : nat) (old : WaitingListEntry),
    slices.IndexFunc (WaitingList ambulance)
      (λ waiting, bool_decide (Param_entryId c = Id waiting)) = Z.of_nat i
    ∧ WaitingList ambulance !! i = Some old ∧ Id old = Param_entryId c
    ∧ Forall (λ x, Id x ≠ Param_entryId c) (take i (WaitingList ambulance)).
Proof.
  intros (x & Hin & Hx).
  destruct (IndexFunc_cases (λ waiting, bool_decide (Param_entryId c = Id waiting))
              (WaitingList ambulance)) as [[_ Hall] | (i & old & Hi & Hlook & Hf & Hpre)].
  - rewrite Forall_forall in Hall. apply Hall in Hin.
    apply bool_decide_eq_false in Hin. by destruct Hin.
  - exists i, old. apply bool_decide_eq_true in Hf. repeat split; [done | done | done |].
    eapply Forall_impl; [exact Hpre |]. intros y Hy%bool_decide_eq_false. congruence.
Qed.

Lemma Update_found entry i old :
  ShouldBindJSON c = Bound entry →
  slices.IndexFunc (WaitingList ambulance)
    (λ waiting, bool_decide (Param_entryId c = Id waiting)) = Z.of_nat i →
  WaitingList ambulance !! i = Some old →
  ∃ returned,
    Reconcile (<[i := patch entry old]> (WaitingList ambulance)) !! i = Some returned
    ∧ UpdateWaitingListEntry c ambulance w
      = (Return (Some (set_WaitingList
                         (Reconcile (<[i := patch entry old]> (WaitingList ambulance)))
                         ambulance))
           (RespEntry returned) http.StatusOK, w).
Proof.
  intros Hbody Hi Hold.
  destruct (lookup_lt_is_Some_2
              (Reconcile (<[i := patch entry old]> (WaitingList ambulance))) i)
    as [returned Hret].
  { rewrite reconciler_facts.Reconcile_length, length_insert. by eapply lookup_lt_Some. }
  exists returned. split; [done |].
  unfold UpdateWaitingListEntry. rewrite Hbody.
  rewrite bool_decide_eq_false_2 by done. cbv zeta. rewrite Hi.
  rewrite (proj2 (Z.ltb_ge _ _)) by lia. rewrite Nat2Z.id, Hold.
  unfold reconcileWaitingList. simpl. by rewrite Hret.
Qed.

Lemma Delete_found i :
  slices.IndexFunc (WaitingList ambulance)
    (λ waiting, bool_decide (Param_entryId c = Id waiting)) = Z.of_nat i →
  DeleteWaitingListEntry c ambulance w
  = (Return (Some (set_WaitingList (Reconcile (delete i (WaitingList ambulance))) ambulance))
       RespNil http.StatusNoContent, w).
Proof.
  intros Hi. unfold DeleteWaitingListEntry.
  rewrite bool_decide_eq_false_2 by done. cbv zeta. rewrite Hi.
  rewrite (proj2 (Z.ltb_ge _ _)) by lia.
  replace (Z.to_nat (Z.of_nat i + 1)) with (S i) by lia.
  rewrite Nat2Z.id, delete_take_drop. done.
Qed.

End lookup_facts.

(** Field by field, [patch] overwrites with what the caller supplied and
    keeps the rest. *)
Lemma patch_fields entry stored :
  (PatientId entry ≠ "" → PatientId (patch entry stored) = PatientId entry)
  ∧ (PatientId entry = "" → PatientId (patch entry stored) = PatientId stored)
  ∧ (Id entry ≠ "" → Id (patch entry stored) = Id entry)
  ∧ (Id entry = "" → Id (patch entry stored) = Id stored)
  ∧ (time.zero < WaitingSince entry
     → WaitingSince (patch entry stored) = WaitingSince entry)
  ∧ (WaitingSince entry ≤ time.zero
     → WaitingSince (patch entry stored) = WaitingSince stored)
  ∧ (0 < EstimatedDurationMinutes entry
     → EstimatedDurationMinutes (patch entry stored) = EstimatedDurationMinutes entry)
  ∧ (EstimatedDurationMinutes entry ≤ 0
     → EstimatedDurationMinutes (patch entry stored) = EstimatedDurationMinutes stored)
  ∧ EstimatedStart (patch entry stored) = EstimatedStart stored.
Proof.
  unfold patch, time.After, time.zero.
  destruct (bool_decide (PatientId entry = "")) eqn:Hp;
    [apply bool_decide_eq_true in Hp | apply bool_decide_eq_false in Hp];
  (destruct (bool_decide (Id entry = "")) eqn:Hi;
    [apply bool_decide_eq_true in Hi | apply bool_decide_eq_false in Hi]);
  (destruct (0 <? WaitingSince entry) eqn:Hw;
    [apply Z.ltb_lt in Hw | apply Z.ltb_ge in Hw]);
  (destruct (0 <? EstimatedDurationMinutes entry) eqn:Hd;
    [apply Z.ltb_lt in Hd | apply Z.ltb_ge in Hd]);
  simpl; repeat split; intros; (done || lia).
Qed.

(** C3: an update request whose entry id is in the list succeeds; the entry
    found under that id is stored with each of [PatientId], [Id],
    [WaitingSince], [EstimatedDurationMinutes] overwritten when the caller
    supplied a non-empty string, an instant after the zero instant, a
    positive number, and kept as it was otherwise. *)
Theorem Update_overwrites_supplied_fields
    (c : Context) (ambulance : Ambulance) (w : World) (entry : WaitingListEntry) :
  ShouldBindJSON c = Bound entry →
  Param_entryId c ≠ "" →
  (∃ x, x ∈ WaitingList ambulance ∧ Id x = Param_entryId c) →
  ∃ (i : nat) (old : WaitingListEntry) (updated : Ambulance)
    (returned stored : WaitingListEntry),
    WaitingList ambulance !! i = Some old ∧ Id old = Param_entryId c
    ∧ Forall (λ x, Id x ≠ Param_entryId c) (take i (WaitingList ambulance))
    ∧ UpdateWaitingListEntry c ambulance w
      = (Return (Some updated) (RespEntry returned) http.StatusOK, w)
    ∧ WaitingList updated = Reconcile (<[i := patch entry old]> (WaitingList ambulance))
    ∧ stored ∈ WaitingList updated
    ∧ supplied stored = supplied (patch entry old)
    ∧ (PatientId entry ≠ "" → PatientId stored = PatientId entry)
    ∧ (PatientId entry = "" → PatientId stored = PatientId old)
    ∧ (Id entry ≠ "" → Id stored = Id entry)
    ∧ (Id entry = "" → Id stored = Id old)
    ∧ (time.zero < WaitingSince entry → WaitingSince stored = WaitingSince entry)
    ∧ (WaitingSince entry ≤ time.zero → WaitingSince stored = WaitingSince old)
    ∧ (0 < EstimatedDurationMinutes entry
       → EstimatedDurationMinutes stored = EstimatedDurationMinutes entry)
    ∧ (EstimatedDurationMinutes entry ≤ 0
       → EstimatedDurationMinutes stored = EstimatedDurationMinutes old).
Proof.
  intros Hbody Hparam Hexists.
  destruct (entry_lookup c ambulance Hexists) as (i & old & Hi & Hold & HId & Hpre).
  destruct (Update_found c ambulance w Hparam entry i old Hbody Hi Hold)
    as (returned & _ & Hrun).
  destruct (reconciler_facts.Reconcile_elem_rev
              (<[i := patch entry old]> (WaitingList ambulance)) (patch entry old))
    as (stored & Hstored & Heq).
  { apply list_elem_of_insert. by eapply lookup_lt_Some. }
  eexists i, old, _, returned, stored.
  do 3 (split; [done |]). split; [exact Hrun |].
  do 2 (split; [done |]). split; [done |].
  destruct (patch_fields entry old)
    as (Hp1 & Hp2 & Hi1 & Hi2 & Hw1 & Hw2 & Hd1 & Hd2 & _).
  unfold supplied in Heq. injection Heq as HeqI HeqP HeqW HeqD.
  rewrite HeqI, HeqP, HeqW, HeqD. repeat split; assumption.
Qed.

Lemma Update_overwrites_supplied_fields_witness :
  ∃ updated returned stored,
    UpdateWaitingListEntry (sample.request "e2" (mkEntry "" "p9" 0 0 0)) sample.ambulance
      sample.world
    = (Return (Some updated) (RespEntry returned) http.StatusOK, sample.world)
    ∧ stored ∈ WaitingList updated
    ∧ supplied stored = ("e2", "p9", 200, 15).
Proof.
  destruct (Update_overwrites_supplied_fields
              (sample.request "e2" (mkEntry "" "p9" 0 0 0)) sample.ambulance sample.world
              (mkEntry "" "p9" 0 0 0) eq_refl)
    as (i & old & updated & returned & stored & Hold & HId & Hpre & Hrun & _ & Hin & Heq & _).
  - discriminate.
  - exists sample.second. split; [| done].
    apply elem_of_cons. right. apply elem_of_cons. by left.
  - exists updated, returned, stored. split; [exact Hrun |]. split; [exact Hin |].
    rewrite Heq. destruct i as [|[|i]]; simpl in Hold.
    + injection Hold as <-. discriminate HId.
    + injection Hold as <-. reflexivity.
    + discriminate Hold.
Defined.

(** C4 (defect of the code): the entry "e1" is updated with a later
    [WaitingSince]; reconciliation moves it behind "e2", and the handler
    answers with the element at the old index, which is "e2", not the updated
    entry.  ([CreateWaitingListEntry] searches the reconciled list again
    before it answers, lines 62-65.) *)
Theorem Update_returns_entry_at_old_index :
  UpdateWaitingListEntry (sample.request "e1" (mkEntry "" "" 300 0 0)) sample.ambulance
    sample.world
  = (Return
       (Some (mkAmbulance "A1" "Ambulance 1"
                [mkEntry "e2" "p2" 200 15 200; mkEntry "e1" "p1" 300 15 900000000200]))
       (RespEntry (mkEntry "e2" "p2" 200 15 200)) 200,
     sample.world).
Proof. reflexivity. Qed.

(** ** The uniqueness invariant *)

Lemma unique_entries_snoc l e :
  unique_entries l →
  (∀ x, x ∈ l → Id x ≠ Id e ∧ PatientId x ≠ PatientId e) →
  unique_entries (l ++ [e]).
Proof.
  intros [HId HPat] Hfresh. unfold unique_entries. rewrite !fmap_app. simpl.
  split; apply NoDup_app; (split; [done |]); (split; [| apply NoDup_singleton]).
  - intros k (x & -> & Hx)%list_elem_of_fmap Hk%list_elem_of_singleton.
    by destruct (Hfresh x Hx).
  - intros k (x & -> & Hx)%list_elem_of_fmap Hk%list_elem_of_singleton.
    by destruct (Hfresh x Hx).
Qed.

Lemma unique_entries_delete l i : unique_entries l → unique_entries (delete i l).
Proof.
  intros [HId HPat]. unfold unique_entries. rewrite !list_fmap_delete.
  split; (eapply sublist_NoDup; [| apply sublist_delete]); done.
Qed.

(** Creating an entry keeps the invariant: the conflict search of lines 49-58
    sees to it. *)
Lemma Create_preserves_unique_entries c ambulance w updated response status w' :
  unique_entries (WaitingList ambulance) →
  CreateWaitingListEntry c ambulance w = (Return (Some updated) response status, w') →
  unique_entries (WaitingList updated).
Proof.
  intros Huniq Hrun.
  destruct (ShouldBindJSON c) as [entry | err] eqn:Hbody.
  2: { unfold CreateWaitingListEntry in Hrun. by rewrite Hbody in Hrun. }
  destruct (decide (PatientId entry = "")) as [Hp | Hp].
  { unfold CreateWaitingListEntry in Hrun. rewrite Hbody in Hrun.
    by rewrite bool_decide_eq_true_2 in Hrun. }
  destruct (in_conflict_dec ambulance entry w) as [Hc | Hfree].
  { by rewrite (Create_conflict c ambulance w entry Hbody Hp Hc) in Hrun. }
  destruct (Create_no_conflict c ambulance w entry Hbody Hp Hfree) as (stored & Hrun' & _).
  rewrite Hrun' in Hrun. injection Hrun as <- _ _ _. simpl.
  apply reconciler_facts.Reconcile_unique, unique_entries_snoc; [done |].
  intros x Hx. split; intros Heq; apply Hfree; exists x; (split; [done |]).
  - by left.
  - by right.
Qed.

(** Deleting an entry keeps the invariant. *)
Lemma Delete_preserves_unique_entries c ambulance w updated response status w' :
  unique_entries (WaitingList ambulance) →
  DeleteWaitingListEntry c ambulance w = (Return (Some updated) response status, w') →
  unique_entries (WaitingList updated).
Proof.
  intros Huniq Hrun.
  destruct (decide (Param_entryId c = "")) as [Hp | Hp].
  { unfold DeleteWaitingListEntry in Hrun. by rewrite bool_decide_eq_true_2 in Hrun. }
  destruct (IndexFunc_cases (λ waiting, bool_decide (Param_entryId c = Id waiting))
              (WaitingList ambulance)) as [[Hi _] | (i & old & Hi & _)].
  { unfold DeleteWaitingListEntry in Hrun.
    rewrite bool_decide_eq_false_2 in Hrun by done. cbv zeta in Hrun.
    by rewrite Hi in Hrun. }
  rewrite (Delete_found c ambulance w Hp i Hi) in Hrun. injection Hrun as <- _ _ _.
  simpl. by apply reconciler_facts.Reconcile_unique, unique_entries_delete.
Qed.

(** C2 (defect of the code): the list of the sample ambulance satisfies the
    invariant; updating entry "e1" with the patient id of entry "e2" succeeds
    and leaves two entries with the patient id "p2".  ([UpdateWaitingListEntry]
    has no conflict search; [CreateWaitingListEntry] has one.) *)
Theorem Update_breaks_unique_entries :
  unique_entries (WaitingList sample.ambulance)
  ∧ ∃ updated,
      UpdateWaitingListEntry (sample.request "e1" (mkEntry "" "p2" 0 0 0)) sample.ambulance
        sample.world
      = (Return (Some updated) (RespEntry (mkEntry "e1" "p2" 100 15 100)) 200, sample.world)
      ∧ WaitingList updated
        = [mkEntry "e1" "p2" 100 15 100; mkEntry "e2" "p2" 200 15 900000000100]
      ∧ ¬ unique_entries (WaitingList updated).
Proof.
  split.
  - split; apply (bool_decide_unpack _); by vm_compute.
  - eexists. split; [reflexivity |]. split; [reflexivity |].
    intros [_ HPat]. simpl in HPat. apply NoDup_cons in HPat as [Hnotin _].
    apply Hnotin, list_elem_of_singleton. reflexivity.
Qed.

(** ** The document store *)

(** C7: without transport failure, [UpdateDocument] fails with [ErrNotFound]
    exactly when no document is filed under [id], and leaves the collection as
    it is; otherwise it succeeds and the document filed under [id] (the first
    one) is replaced by [document], nothing else changes. *)
Theorem UpdateDocument_NotFound_iff_absent {DocType : Type} (doc_id : DocType → string)
    (drv : db_service.Driver) (this : db_service.mongoSvc)
    (coll : list DocType) (id : string) (document : DocType) :
  db_service.healthy drv →
  let run := db_service.UpdateDocument doc_id drv (this, coll) id document in
  (run.1 = Some db_service.ErrNotFound ↔ ∀ d, d ∈ coll → doc_id d ≠ id)
  ∧ ((∀ d, d ∈ coll → doc_id d ≠ id) → run.2.2 = coll)
  ∧ ((∃ d, d ∈ coll ∧ doc_id d = id) →
       run.1 = None
       ∧ ∃ (before : list DocType) (old : DocType) (after : list DocType),
           coll = (before ++ old :: after)%list
           ∧ doc_id old = id
           ∧ Forall (λ d, doc_id d ≠ id) before
           ∧ run.2.2 = (before ++ document :: after)%list).
Proof.
  intros Hdrv run. subst run. unfold db_service.UpdateDocument.
  destruct (connect_healthy drv this Hdrv) as (cl & this' & ->).
  destruct Hdrv as (_ & -> & ->).
  destruct (db_service.FindOne doc_id coll id) as [[i old]|] eqn:Hfind; simpl.
  - apply FindOne_Some in Hfind as (Hi & Hold & Hpre).
    assert (old ∈ coll) as Hin by (by eapply list_elem_of_lookup_2).
    split; [| split].
    + split; [done |]. intros Habsent. by destruct (Habsent old Hin).
    + intros Habsent. by destruct (Habsent old Hin).
    + intros _. split; [done |].
      exists (take i coll), old, (drop (S i) coll).
      split; [by rewrite take_drop_middle |]. split; [done |]. split; [done |].
      unfold db_service.ReplaceOne.
      rewrite (proj2 (FindOne_Some doc_id coll id i old)) by done.
      apply insert_take_drop. by eapply lookup_lt_Some.
  - apply FindOne_None in Hfind. rewrite Forall_forall in Hfind.
    split; [| split].
    + done.
    + done.
    + intros (d & Hin & Hd). by destruct (Hfind d Hin).
Qed.

Lemma UpdateDocument_NotFound_iff_absent_witness :
  let run := db_service.UpdateDocument Ambulance_Id sample.driver sample.store "A2"
               (mkAmbulance "A2" "Ambulance 2" [sample.first]) in
  run.1 = None
  ∧ run.2.2 = [sample.ambulance; mkAmbulance "A2" "Ambulance 2" [sample.first]].
Proof.
  destruct (UpdateDocument_NotFound_iff_absent Ambulance_Id sample.driver
              (db_service.mkSvc None) [sample.ambulance; sample.idle] "A2"
              (mkAmbulance "A2" "Ambulance 2" [sample.first]))
    as (_ & _ & Hpresent).
  - split; [by exists 1%nat | done].
  - destruct Hpresent as (Hok & _).
    + exists sample.idle. split; [| done].
      apply elem_of_cons. right. apply elem_of_cons. by left.
    + split; [exact Hok | reflexivity].
Defined.

(** ** [connect] under concurrent callers *)

Section concurrent_facts.
Import db_service concurrent.

(** [step], with the fields of the state read where they are used. *)
Lemma step_fields i fault s :
  step i fault s =
  match callers s i with
  | AtLoad =>
      match cached s with
      | Some c =>
          Some (mkState (cached s) (locked s) (constructed s) (failed s)
                  (move i (Returned (inl c)) (callers s)))
      | None =>
          Some (mkState (cached s) (locked s) (constructed s) (failed s)
                  (move i AtLock (callers s)))
      end
  | AtLock =>
      if locked s then None
      else Some (mkState (cached s) true (constructed s) (failed s)
                   (move i AtLoadLocked (callers s)))
  | AtLoadLocked =>
      match cached s with
      | Some c =>
          Some (mkState (cached s) (locked s) (constructed s) (failed s)
                  (move i (AtUnlock (inl c)) (callers s)))
      | None =>
          Some (mkState (cached s) (locked s) (constructed s) (failed s)
                  (move i AtConnect (callers s)))
      end
  | AtConnect =>
      match fault with
      | Some err =>
          Some (mkState (cached s) (locked s) (constructed s) (S (failed s))
                  (move i (AtUnlock (inr (ErrOther err))) (callers s)))
      | None =>
          Some (mkState (cached s) (locked s) (S (constructed s)) (failed s)
                  (move i (AtStore (S (constructed s))) (callers s)))
      end
  | AtStore c =>
      Some (mkState (Some c) (locked s) (constructed s) (failed s)
              (move i (AtUnlock (inl c)) (callers s)))
  | AtUnlock r =>
      Some (mkState (cached s) false (constructed s) (failed s)
              (move i (Returned r) (callers s)))
  | Returned _ => None
  end.
Proof. by destruct s. Qed.

Lemma init_Inv : Inv init.
Proof.
  constructor; simpl; try done.
  - by left.
Qed.

Lemma caller_ok_frame s s' pc :
  cached s' = cached s → constructed s' = constructed s → (failed s ≤ failed s')%nat →
  caller_ok s pc → caller_ok s' pc.
Proof.
  intros Hca Hco Hf. destruct pc as [| | | |c|[c|e]|[c|e]]; simpl; rewrite ?Hca, ?Hco; try done; lia.
Qed.

Lemma holder_moved (callers : nat → Pc) i pc :
  (holds_lock (callers i) = true → holds_lock pc = true) →
  (∃ k, holds_lock (callers k) = true) →
  ∃ k, holds_lock (move i pc callers k) = true.
Proof.
  intros Himp [k Hk]. exists k. unfold move. case_decide; subst; auto.
Qed.

Lemma store_moved (callers : nat → Pc) i pc :
  callers i ≠ AtStore 1%nat →
  (∃ k, callers k = AtStore 1%nat) →
  ∃ k, move i pc callers k = AtStore 1%nat.
Proof.
  intros Hne [k Hk]. exists k. unfold move. case_decide; subst; done.
Qed.

Ltac caller_cases :=
  unfold move in *;
  repeat match goal with
         | |- context [decide (?j = ?i)] => destruct (decide (j = i)); subst
         | H : context [decide (?j = ?i)] |- _ => destruct (decide (j = i)); subst
         end.

Ltac other_caller Hc :=
  lazymatch goal with
  | |- caller_ok _ (callers ?s ?j) => apply (caller_ok_frame s); simpl; [done | done | lia | apply Hc]
  end.

Ltac keep_constructed Hco Hpc :=
  destruct Hco as [? | [? [? | ?]]];
  [by left
  | right; split; [done | by left]
  | right; split; [done |]; right; apply store_moved; [by rewrite Hpc | done]].

Ltac routine Hc :=
  try (intros; caller_cases; simpl in *; eauto; try congruence; try other_caller Hc).

Lemma step_Inv i fault s s' : Inv s → step i fault s = Some s' → Inv s'.
Proof.
  intros [Hc Hl He Hh Hca Hco] Hstep. rewrite step_fields in Hstep.
  pose proof (Hc i) as Hci. pose proof (Hl i) as Hli.
  pose proof (λ j, He i j) as Hei. pose proof (λ j, He j i) as Hei'.
  destruct (callers s i) as [| | | |c|r|r] eqn:Hpc; simpl in *.
  - (* the optimistic check *)
    destruct (cached s) as [c|] eqn:Hcached; simplify_eq; constructor; simpl; routine Hc.
    + intros. apply holder_moved; [by rewrite Hpc | auto].
    + keep_constructed Hco Hpc.
    + intros. apply holder_moved; [by rewrite Hpc | auto].
    + keep_constructed Hco Hpc.
  - (* Lock *)
    destruct (locked s) eqn:Hlocked; simplify_eq; constructor; simpl; routine Hc.
    + exists i. unfold move. by rewrite decide_True.
    + keep_constructed Hco Hpc.
  - (* the pessimistic check *)
    destruct (cached s) as [c|] eqn:Hcached; simplify_eq; constructor; simpl; routine Hc.
    + intros. apply holder_moved; [done | auto].
    + keep_constructed Hco Hpc.
    + split; [done |]. destruct Hco as [? | [_ [? | [k Hk]]]]; [done | congruence |].
      assert (k = i) as -> by (apply He; [by rewrite Hk | by rewrite Hpc]). congruence.
    + intros. apply holder_moved; [done | auto].
    + keep_constructed Hco Hpc.
  - (* mongo.Connect *)
    destruct Hci as [Hcached Hnone].
    destruct fault as [err|]; simplify_eq; constructor; simpl; routine Hc.
    + lia.
    + intros. apply holder_moved; [done | auto].
    + pose proof (Hc i0) as Hj. pose proof (He i0 i) as Hx. rewrite Hpc in Hx.
      destruct (callers s i0) as [| | | |c|[c|e]|[c|e]]; simpl in *;
        try done; try (by destruct n; apply Hx); congruence.
    + intros. apply holder_moved; [done | auto].
    + right. split; [lia |]. right. exists i. unfold move.
      rewrite decide_True by done. by rewrite Hnone.
  - (* Store *)
    destruct Hci as (Hcached & Hone & ->).
    simplify_eq; constructor; simpl; routine Hc.
    + pose proof (Hc i0) as Hj. pose proof (He i0 i) as Hx. rewrite Hpc in Hx.
      destruct (callers s i0) as [| | | |c|[c|e]|[c|e]]; simpl in *;
        try done; try (by destruct n; apply Hx); congruence.
    + intros. apply holder_moved; [done | auto].
    + by simplify_eq.
  - (* Unlock *)
    simplify_eq; constructor; simpl; routine Hc.
    keep_constructed Hco Hpc.
  - done.
Qed.

Lemma run_Inv schedule s s' : Inv s → run schedule s = Some s' → Inv s'.
Proof.
  revert s. induction schedule as [|[i fault] schedule IH]; intros s Hs Hrun; simpl in Hrun.
  - by simplify_eq.
  - destruct (step i fault s) as [s1|] eqn:Hstep; [| done].
    eapply IH; [| exact Hrun]. by eapply step_Inv.
Qed.



End concurrent_facts.

(** C8: in every run of concurrent callers of [connect] that starts with no
    cached client, the driver constructs at most one client; once a caller
    has returned with a handle exactly one has been constructed, it is the
    cached one, and every caller that returns with a handle returns with that
    one; and when no construction fails every caller that returns returns
    with a handle. *)
Theorem connect_constructs_once
    (schedule : list (nat * option string)) (s : concurrent.State) :
  concurrent.run schedule concurrent.init = Some s →
  (concurrent.constructed s ≤ 1)%nat
  ∧ (∀ i j ci cj,
       concurrent.callers s i = concurrent.Returned (inl ci) →
       concurrent.callers s j = concurrent.Returned (inl cj) → ci = cj)
  ∧ (∀ i c,
       concurrent.callers s i = concurrent.Returned (inl c) →
       concurrent.constructed s = 1%nat ∧ concurrent.cached s = Some c)
  ∧ (concurrent.failed s = 0%nat →
       ∀ i r, concurrent.callers s i = concurrent.Returned r → ∃ c, r = inl c).
Proof.
  intros Hrun. pose proof (run_Inv schedule _ s init_Inv Hrun) as HI.
  pose proof (concurrent.inv_callers s HI) as Hc.
  split; [| split; [| split]].
  - destruct (concurrent.inv_constructed s HI) as [-> | [-> _]]; lia.
  - intros i j ci cj Hi Hj.
    pose proof (Hc i) as Hci. pose proof (Hc j) as Hcj.
    rewrite Hi in Hci. rewrite Hj in Hcj. simpl in *. congruence.
  - intros i c Hi. pose proof (Hc i) as Hci. rewrite Hi in Hci. simpl in Hci.
    split; [| done]. by destruct (concurrent.inv_cached s HI c Hci).
  - intros Hfailed i r Hi. pose proof (Hc i) as Hci. rewrite Hi in Hci.
    destruct r as [c | e]; [by eauto |]. simpl in Hci. lia.
Qed.

Lemma connect_constructs_once_witness :
  ∃ s, concurrent.run concurrent.race concurrent.init = Some s
       ∧ concurrent.constructed s = 1%nat
       ∧ concurrent.cached s = Some 1%nat
       ∧ concurrent.callers s 0%nat = concurrent.Returned (inl 1%nat)
       ∧ concurrent.callers s 1%nat = concurrent.Returned (inl 1%nat)
       ∧ concurrent.callers s 2%nat = concurrent.Returned (inl 1%nat).
Proof.
  eexists. split; [vm_compute; reflexivity |].
  destruct (connect_constructs_once concurrent.race _ eq_refl) as (_ & _ & Hone & _).
  destruct (Hone 0%nat 1%nat eq_refl) as [Hconstructed Hcached].
  split; [exact Hconstructed |]. split; [exact Hcached |].
  repeat split.
Defined.

(** * Further properties *)

(** ** The document store, one caller at a time *)

Section store_facts.
Import db_service.
Context {DocType : Type} (doc_id : DocType → string).
Implicit Types (coll : list DocType) (id : string) (document : DocType).

(** The document found is the first of those filed under [id]. *)
Lemma FindOne_head_filter coll id :
  snd <$> FindOne doc_id coll id = head (filter (λ d, doc_id d = id) coll).
Proof.
  induction coll as [|a coll IH]; simpl; [done |].
  rewrite filter_cons. case_bool_decide as Ha.
  - by rewrite decide_True.
  - rewrite decide_False by done. rewrite <- IH.
    by destruct (FindOne doc_id coll id) as [[i d]|].
Qed.



Lemma FindOne_split coll id i old :
  FindOne doc_id coll id = Some (i, old) →
  coll = (take i coll ++ old :: drop (S i) coll)%list
  ∧ length (take i coll) = i
  ∧ doc_id old = id
  ∧ Forall (λ d, doc_id d ≠ id) (take i coll).
Proof.
  intros (Hi & Hold & Hpre)%FindOne_Some.
  split; [by rewrite take_drop_middle |]. split; [| done].
  apply length_take_le. apply lookup_lt_Some in Hi. lia.
Qed.

(** What the four operations do when the driver has no fault. *)
Lemma CreateDocument_healthy drv this coll id document :
  healthy drv →
  ∃ this',
    CreateDocument doc_id drv (this, coll) id document
    = match FindOne doc_id coll id with
      | Some _ => (Some ErrConflict, (this', coll))
      | None => (None, (this', (coll ++ [document])%list))
      end
    ∧ (connect drv this).2 = this'.
Proof.
  intros Hdrv. unfold CreateDocument.
  destruct (connect_healthy drv this Hdrv) as (cl & this' & ->).
  destruct Hdrv as (_ & -> & ->). exists this'.
  by destruct (FindOne doc_id coll id).
Qed.

Lemma FindDocument_healthy drv this coll id :
  healthy drv →
  ∃ this',
    FindDocument doc_id drv (this, coll) id
    = (match FindOne doc_id coll id with
       | Some (_, document) => inl document
       | None => inr ErrNotFound
       end, (this', coll))
    ∧ (connect drv this).2 = this'.
Proof.
  intros Hdrv. unfold FindDocument.
  destruct (connect_healthy drv this Hdrv) as (cl & this' & ->).
  destruct Hdrv as (_ & -> & _). exists this'.
  by destruct (FindOne doc_id coll id) as [[i d]|].
Qed.


Lemma DeleteDocument_healthy drv this coll id :
  healthy drv →
  ∃ this',
    DeleteDocument doc_id drv (this, coll) id
    = match FindOne doc_id coll id with
      | Some (i, _) => (None, (this', delete i coll))
      | None => (Some ErrNotFound, (this', coll))
      end
    ∧ (connect drv this).2 = this'.
Proof.
  intros Hdrv. unfold DeleteDocument, DeleteOne.
  destruct (connect_healthy drv this Hdrv) as (cl & this' & ->).
  destruct Hdrv as (_ & -> & ->). exists this'.
  by destruct (FindOne doc_id coll id) as [[i d]|].
Qed.

End store_facts.

Lemma sample_driver_healthy : db_service.healthy sample.driver.
Proof. split; [by exists 1%nat | done]. Qed.

(** X1: without transport failure, [CreateDocument] fails with [ErrConflict]
    exactly when a document is filed under [id], and then leaves the
    collection as it is; otherwise it succeeds and appends [document]. *)
Theorem CreateDocument_Conflict_iff_present {DocType : Type} (doc_id : DocType → string)
    (drv : db_service.Driver) (this : db_service.mongoSvc)
    (coll : list DocType) (id : string) (document : DocType) :
  db_service.healthy drv →
  let run := db_service.CreateDocument doc_id drv (this, coll) id document in
  (run.1 = Some db_service.ErrConflict ↔ ∃ d, d ∈ coll ∧ doc_id d = id)
  ∧ (run.1 = Some db_service.ErrConflict → run.2.2 = coll)
  ∧ ((∀ d, d ∈ coll → doc_id d ≠ id) →
       run.1 = None ∧ run.2.2 = (coll ++ [document])%list).
Proof.
  intros Hdrv run. subst run.
  destruct (CreateDocument_healthy doc_id drv this coll id document Hdrv)
    as (this' & -> & _).
  destruct (db_service.FindOne doc_id coll id) as [[i old]|] eqn:Hfind; simpl.
  - apply FindOne_Some in Hfind as (Hi & Hold & _).
    assert (old ∈ coll) as Hin by (by eapply list_elem_of_lookup_2).
    split; [| split]; [split; by eauto | done |].
    intros Habsent. by destruct (Habsent old Hin).
  - apply FindOne_None in Hfind. rewrite Forall_forall in Hfind.
    split; [| split]; [| done | done].
    split; [done |]. intros (d & Hin & Hd). by destruct (Hfind d Hin).
Qed.

Lemma CreateDocument_Conflict_iff_present_witness :
  (db_service.CreateDocument Ambulance_Id sample.driver sample.store "A1" sample.idle).1
  = Some db_service.ErrConflict
  ∧ (db_service.CreateDocument Ambulance_Id sample.driver sample.store "A1" sample.idle).2.2
    = [sample.ambulance; sample.idle].
Proof.
  destruct (CreateDocument_Conflict_iff_present Ambulance_Id sample.driver
              (db_service.mkSvc None) [sample.ambulance; sample.idle] "A1" sample.idle
              sample_driver_healthy) as (Hiff & Hsame & _).
  assert ((db_service.CreateDocument Ambulance_Id sample.driver sample.store "A1"
             sample.idle).1 = Some db_service.ErrConflict) as Herr.
  { apply Hiff. exists sample.ambulance. split; [apply elem_of_cons; by left | done]. }
  split; [exact Herr | exact (Hsame Herr)].
Defined.



(** X3: [CreateDocument] looks for [id] only; it does not compare [id] with
    the id the document carries.  A document that carries another id is
    inserted all the same, is not found under [id] afterwards, and creating
    it again under [id] succeeds again. *)
Theorem CreateDocument_ignores_document_id {DocType : Type} (doc_id : DocType → string)
    (drv : db_service.Driver) (this : db_service.mongoSvc)
    (coll : list DocType) (id : string) (document : DocType) :
  db_service.healthy drv →
  (∀ d, d ∈ coll → doc_id d ≠ id) →
  doc_id document ≠ id →
  ∃ this',
    db_service.CreateDocument doc_id drv (this, coll) id document
    = (None, (this', (coll ++ [document])%list))
    ∧ (db_service.FindDocument doc_id drv (this', (coll ++ [document])%list) id).1
      = inr db_service.ErrNotFound
    ∧ (db_service.CreateDocument doc_id drv (this', (coll ++ [document])%list) id document).1
      = None.
Proof.
  intros Hdrv Habsent Hdoc.
  assert (db_service.FindOne doc_id coll id = None) as Hnone.
  { apply FindOne_None, Forall_forall. exact Habsent. }
  assert (db_service.FindOne doc_id (coll ++ [document])%list id = None) as Hnone'.
  { apply FindOne_None, Forall_app. split; [by apply FindOne_None |]. by constructor. }
  destruct (CreateDocument_healthy doc_id drv this coll id document Hdrv)
    as (this' & Hrun & _). rewrite Hnone in Hrun.
  exists this'. split; [exact Hrun |]. split.
  - destruct (FindDocument_healthy doc_id drv this' (coll ++ [document])%list id Hdrv)
      as (this'' & -> & _). by rewrite Hnone'.
  - destruct (CreateDocument_healthy doc_id drv this' (coll ++ [document])%list id
                document Hdrv) as (this'' & -> & _). by rewrite Hnone'.
Qed.

Lemma CreateDocument_ignores_document_id_witness :
  ∃ this',
    db_service.CreateDocument Ambulance_Id sample.driver sample.store "A3" sample.idle
    = (None, (this', [sample.ambulance; sample.idle; sample.idle]))
    ∧ (db_service.FindDocument Ambulance_Id sample.driver
         (this', [sample.ambulance; sample.idle; sample.idle]) "A3").1
      = inr db_service.ErrNotFound
    ∧ (db_service.CreateDocument Ambulance_Id sample.driver
         (this', [sample.ambulance; sample.idle; sample.idle]) "A3" sample.idle).1
      = None.
Proof.
  apply (CreateDocument_ignores_document_id Ambulance_Id sample.driver
           (db_service.mkSvc None) [sample.ambulance; sample.idle] "A3" sample.idle
           sample_driver_healthy).
  - intros d Hd. rewrite !elem_of_cons in Hd.
    destruct Hd as [-> | [-> | Hd]]; [discriminate | discriminate | by inversion Hd].
  - discriminate.
Defined.

(** X4: without transport failure, [FindDocument] fails with [ErrNotFound]
    exactly when no document is filed under [id]; otherwise it returns the
    first document filed under [id].  The collection stays as it is. *)
Theorem FindDocument_first_or_NotFound {DocType : Type} (doc_id : DocType → string)
    (drv : db_service.Driver) (this : db_service.mongoSvc)
    (coll : list DocType) (id : string) :
  db_service.healthy drv →
  let run := db_service.FindDocument doc_id drv (this, coll) id in
  (run.1 = inr db_service.ErrNotFound ↔ ∀ d, d ∈ coll → doc_id d ≠ id)
  ∧ ((∃ d, d ∈ coll ∧ doc_id d = id) →
       ∃ (before : list DocType) (found : DocType) (after : list DocType),
         run.1 = inl found
         ∧ coll = (before ++ found :: after)%list
         ∧ doc_id found = id
         ∧ Forall (λ d, doc_id d ≠ id) before)
  ∧ run.2.2 = coll.
Proof.
  intros Hdrv run. subst run.
  destruct (FindDocument_healthy doc_id drv this coll id Hdrv) as (this' & -> & _).
  destruct (db_service.FindOne doc_id coll id) as [[i old]|] eqn:Hfind; simpl.
  - destruct (FindOne_split doc_id coll id i old Hfind) as (Hsplit & _ & Hold & Hpre).
    assert (old ∈ coll) as Hin.
    { rewrite Hsplit. apply elem_of_app. right. apply elem_of_cons. by left. }
    split; [| split]; [| | done].
    + split; [done |]. intros Habsent. by destruct (Habsent old Hin).
    + intros _. by exists (take i coll), old, (drop (S i) coll).
  - apply FindOne_None in Hfind. rewrite Forall_forall in Hfind.
    split; [| split]; [done | | done].
    intros (d & Hin & Hd). by destruct (Hfind d Hin).
Qed.

Lemma FindDocument_first_or_NotFound_witness :
  (db_service.FindDocument Ambulance_Id sample.driver sample.store "A9").1
  = inr db_service.ErrNotFound.
Proof.
  apply (FindDocument_first_or_NotFound Ambulance_Id sample.driver
           (db_service.mkSvc None) [sample.ambulance; sample.idle] "A9"
           sample_driver_healthy).
  intros d Hd. rewrite !elem_of_cons in Hd.
  destruct Hd as [-> | [-> | Hd]]; [discriminate | discriminate | by inversion Hd].
Defined.

(** X5: without transport failure, [DeleteDocument] fails with [ErrNotFound]
    exactly when no document is filed under [id], and then leaves the
    collection as it is; otherwise it succeeds and removes the first document
    filed under [id], and nothing else. *)
Theorem DeleteDocument_NotFound_iff_absent {DocType : Type} (doc_id : DocType → string)
    (drv : db_service.Driver) (this : db_service.mongoSvc)
    (coll : list DocType) (id : string) :
  db_service.healthy drv →
  let run := db_service.DeleteDocument doc_id drv (this, coll) id in
  (run.1 = Some db_service.ErrNotFound ↔ ∀ d, d ∈ coll → doc_id d ≠ id)
  ∧ ((∀ d, d ∈ coll → doc_id d ≠ id) → run.2.2 = coll)
  ∧ ((∃ d, d ∈ coll ∧ doc_id d = id) →
       run.1 = None
       ∧ ∃ (before : list DocType) (old : DocType) (after : list DocType),
           coll = (before ++ old :: after)%list
           ∧ doc_id old = id
           ∧ Forall (λ d, doc_id d ≠ id) before
           ∧ run.2.2 = (before ++ after)%list).
Proof.
  intros Hdrv run. subst run.
  destruct (DeleteDocument_healthy doc_id drv this coll id Hdrv) as (this' & -> & _).
  destruct (db_service.FindOne doc_id coll id) as [[i old]|] eqn:Hfind; simpl.
  - destruct (FindOne_split doc_id coll id i old Hfind) as (Hsplit & _ & Hold & Hpre).
    assert (old ∈ coll) as Hin.
    { rewrite Hsplit. apply elem_of_app. right. apply elem_of_cons. by left. }
    split; [| split].
    + split; [done |]. intros Habsent. by destruct (Habsent old Hin).
    + intros Habsent. by destruct (Habsent old Hin).
    + intros _. split; [done |].
      exists (take i coll), old, (drop (S i) coll).
      split; [done |]. split; [done |]. split; [done |]. apply delete_take_drop.
  - apply FindOne_None in Hfind. rewrite Forall_forall in Hfind.
    split; [| split]; [done | done |].
    intros (d & Hin & Hd). by destruct (Hfind d Hin).
Qed.

Lemma DeleteDocument_NotFound_iff_absent_witness :
  (db_service.DeleteDocument Ambulance_Id sample.driver sample.store "A1").1 = None
  ∧ ∃ before old after,
      [sample.ambulance; sample.idle] = (before ++ old :: after)%list
      ∧ Ambulance_Id old = "A1"
      ∧ Forall (λ d, Ambulance_Id d ≠ "A1") before
      ∧ (db_service.DeleteDocument Ambulance_Id sample.driver sample.store "A1").2.2
        = (before ++ after)%list.
Proof.
  apply (DeleteDocument_NotFound_iff_absent Ambulance_Id sample.driver
           (db_service.mkSvc None) [sample.ambulance; sample.idle] "A1"
           sample_driver_healthy).
  exists sample.ambulance. split; [apply elem_of_cons; by left | done].
Defined.

(** The three writes change the collection in one way only, whatever the
    driver does. *)
Lemma CreateDocument_collection {DocType : Type} (doc_id : DocType → string)
    drv this (coll : list DocType) id document :
  (db_service.CreateDocument doc_id drv (this, coll) id document).2.2 = coll
  ∨ (db_service.FindOne doc_id coll id = None
     ∧ (db_service.CreateDocument doc_id drv (this, coll) id document).2.2
       = (coll ++ [document])%list).
Proof.
  unfold db_service.CreateDocument.
  destruct (db_service.connect drv this) as [[cl | err] this']; [| by left].
  destruct (db_service.FindOne_fault drv); [by left |].
  destruct (db_service.FindOne doc_id coll id) as [[i d]|]; [by left |].
  destruct (db_service.write_fault drv); [by left | by right].
Qed.

Lemma UpdateDocument_collection {DocType : Type} (doc_id : DocType → string)
    drv this (coll : list DocType) id document :
  (db_service.UpdateDocument doc_id drv (this, coll) id document).2.2 = coll
  ∨ ∃ i old,
      db_service.FindOne doc_id coll id = Some (i, old)
      ∧ (db_service.UpdateDocument doc_id drv (this, coll) id document).2.2
        = <[i := document]> coll.
Proof.
  unfold db_service.UpdateDocument, db_service.ReplaceOne.
  destruct (db_service.connect drv this) as [[cl | err] this']; [| by left].
  destruct (db_service.FindOne_fault drv); [by left |].
  destruct (db_service.FindOne doc_id coll id) as [[i d]|]; [| by left].
  destruct (db_service.write_fault drv); [by left | right; by eauto].
Qed.

Lemma DeleteDocument_collection {DocType : Type} (doc_id : DocType → string)
    drv this (coll : list DocType) id :
  (db_service.DeleteDocument doc_id drv (this, coll) id).2.2 = coll
  ∨ ∃ i old,
      db_service.FindOne doc_id coll id = Some (i, old)
      ∧ (db_service.DeleteDocument doc_id drv (this, coll) id).2.2 = delete i coll.
Proof.
  unfold db_service.DeleteDocument, db_service.DeleteOne.
  destruct (db_service.connect drv this) as [[cl | err] this']; [| by left].
  destruct (db_service.FindOne_fault drv); [by left |].
  destruct (db_service.FindOne doc_id coll id) as [[i d]|]; [| by left].
  destruct (db_service.write_fault drv); [by left | right; by eauto].
Qed.

(** X6: in a collection with at most one document per id, a document that
    was deleted is not found afterwards. *)
Theorem DeleteDocument_then_FindDocument {DocType : Type} (doc_id : DocType → string)
    (drv drv' : db_service.Driver) (this : db_service.mongoSvc) (coll : list DocType)
    (st' : db_service.mongoSvc * list DocType) (id : string) :
  db_service.healthy drv → db_service.healthy drv' →
  NoDup (doc_id <$> coll) →
  db_service.DeleteDocument doc_id drv (this, coll) id = (None, st') →
  (db_service.FindDocument doc_id drv' st' id).1 = inr db_service.ErrNotFound.
Proof.
  intros Hdrv Hdrv' Hkeys Hdelete.
  destruct (DeleteDocument_healthy doc_id drv this coll id Hdrv) as (this' & Hrun & _).
  rewrite Hrun in Hdelete.
  destruct (db_service.FindOne doc_id coll id) as [[i old]|] eqn:Hfind; [| done].
  injection Hdelete as <-.
  destruct (FindOne_split doc_id coll id i old Hfind) as (Hsplit & _ & Hold & Hpre).
  destruct (FindDocument_healthy doc_id drv' this' (delete i coll) id Hdrv')
    as (this'' & -> & _).
  assert (db_service.FindOne doc_id (delete i coll) id = None) as ->; [| done].
  apply FindOne_None. rewrite delete_take_drop. apply Forall_app. split; [done |].
  rewrite Hsplit, fmap_app, fmap_cons in Hkeys.
  apply NoDup_app in Hkeys as (_ & _ & Hkeys). apply NoDup_cons in Hkeys as [Hnotin _].
  apply Forall_forall. intros d Hd Heq. apply Hnotin.
  rewrite <- Hold in Heq. rewrite <- Heq. by apply list_elem_of_fmap_2.
Qed.

Lemma DeleteDocument_then_FindDocument_witness :
  (db_service.FindDocument Ambulance_Id sample.driver
     (db_service.mkSvc (Some 1%nat), [sample.idle]) "A1").1
  = inr db_service.ErrNotFound.
Proof.
  apply (DeleteDocument_then_FindDocument Ambulance_Id sample.driver sample.driver
           (db_service.mkSvc None) [sample.ambulance; sample.idle] _ "A1"
           sample_driver_healthy sample_driver_healthy).
  - apply (bool_decide_unpack _). by vm_compute.
  - reflexivity.
Defined.

(** X7: a collection with at most one document per id stays so under
    [CreateDocument], [UpdateDocument] and [DeleteDocument], with or without
    transport failure, as long as the documents written carry the id they are
    written under. *)
Theorem store_keeps_ids_unique {DocType : Type} (doc_id : DocType → string)
    (drv : db_service.Driver) (this : db_service.mongoSvc)
    (coll : list DocType) (id : string) (document : DocType) :
  NoDup (doc_id <$> coll) →
  doc_id document = id →
  NoDup (doc_id <$> (db_service.CreateDocument doc_id drv (this, coll) id document).2.2)
  ∧ NoDup (doc_id <$> (db_service.UpdateDocument doc_id drv (this, coll) id document).2.2)
  ∧ NoDup (doc_id <$> (db_service.DeleteDocument doc_id drv (this, coll) id).2.2).
Proof.
  intros Hkeys Hdoc. split; [| split].
  - destruct (CreateDocument_collection doc_id drv this coll id document)
      as [-> | [Hnone ->]]; [done |].
    rewrite fmap_app. apply NoDup_app. split; [done |]. split; [| apply NoDup_singleton].
    intros k (d & -> & Hd)%list_elem_of_fmap Hk%list_elem_of_singleton.
    apply FindOne_None in Hnone. rewrite Forall_forall in Hnone.
    apply (Hnone d Hd). simpl in Hk. congruence.
  - destruct (UpdateDocument_collection doc_id drv this coll id document)
      as [-> | (i & old & Hfind & ->)]; [done |].
    apply FindOne_Some in Hfind as (Hi & Hold & _).
    rewrite list_fmap_insert, list_insert_id; [done |].
    rewrite list_lookup_fmap.
    etrans; [exact (f_equal (fmap doc_id) Hi) | simpl; congruence].
  - destruct (DeleteDocument_collection doc_id drv this coll id)
      as [-> | (i & old & _ & ->)]; [done |].
    rewrite list_fmap_delete. eapply sublist_NoDup; [done | apply sublist_delete].
Qed.

Lemma store_keeps_ids_unique_witness :
  NoDup (Ambulance_Id <$>
           (db_service.CreateDocument Ambulance_Id sample.driver sample.store "A3"
              (mkAmbulance "A3" "Ambulance 3" [])).2.2).
Proof.
  apply (store_keeps_ids_unique Ambulance_Id sample.driver (db_service.mkSvc None)
           [sample.ambulance; sample.idle] "A3" (mkAmbulance "A3" "Ambulance 3" [])).
  - apply (bool_decide_unpack _). by vm_compute.
  - reflexivity.
Defined.

(** X8: what is found under another id [id'] is the same before and after a
    [CreateDocument], [UpdateDocument] or [DeleteDocument] under [id], with
    or without transport failure, provided the document written does not
    carry [id']. *)
Theorem other_ids_untouched {DocType : Type} (doc_id : DocType → string)
    (drv : db_service.Driver) (this : db_service.mongoSvc)
    (coll : list DocType) (id id' : string) (document : DocType) :
  id' ≠ id →
  doc_id document ≠ id' →
  let found (c : list DocType) := snd <$> db_service.FindOne doc_id c id' in
  found (db_service.CreateDocument doc_id drv (this, coll) id document).2.2 = found coll
  ∧ found (db_service.UpdateDocument doc_id drv (this, coll) id document).2.2 = found coll
  ∧ found (db_service.DeleteDocument doc_id drv (this, coll) id).2.2 = found coll.
Proof.
  intros Hid Hdoc found. subst found. cbv beta. rewrite !FindOne_head_filter.
  split; [| split].
  - destruct (CreateDocument_collection doc_id drv this coll id document)
      as [-> | [_ ->]]; [done |].
    rewrite filter_app, filter_cons_False, filter_nil by done. by rewrite app_nil_r.
  - destruct (UpdateDocument_collection doc_id drv this coll id document)
      as [-> | (i & old & Hfind & ->)]; [done |].
    destruct (FindOne_split doc_id coll id i old Hfind) as (Hsplit & Hlen & Hold & _).
    rewrite Hsplit at 2. rewrite insert_take_drop.
    + rewrite !filter_app, !filter_cons_False; [done | congruence | done].
    + rewrite <- Hlen. rewrite Hsplit at 2. rewrite length_app. simpl. lia.
  - destruct (DeleteDocument_collection doc_id drv this coll id)
      as [-> | (i & old & Hfind & ->)]; [done |].
    destruct (FindOne_split doc_id coll id i old Hfind) as (Hsplit & _ & Hold & _).
    rewrite Hsplit at 2. rewrite delete_take_drop.
    rewrite !filter_app, filter_cons_False; [done | congruence].
Qed.

Lemma other_ids_untouched_witness :
  snd <$> db_service.FindOne Ambulance_Id
            (db_service.DeleteDocument Ambulance_Id sample.driver sample.store "A1").2.2 "A2"
  = Some sample.idle.
Proof.
  destruct (other_ids_untouched Ambulance_Id sample.driver (db_service.mkSvc None)
              [sample.ambulance; sample.idle] "A1" "A2" sample.ambulance)
    as (_ & _ & Hdelete); [discriminate | discriminate |].
  exact Hdelete.
Defined.



(** X10: a transport failure before the write, be it that no client is
    cached and the driver cannot construct one, or that the driver fails on
    [FindOne], makes each of the four operations return the driver's error,
    not [ErrNotFound] or [ErrConflict], whatever the collection holds; the
    collection stays as it is. *)
Theorem transport_failure_leaves_collection {DocType : Type} (doc_id : DocType → string)
    (drv : db_service.Driver) (this : db_service.mongoSvc)
    (coll : list DocType) (id : string) (document : DocType) (err : string) :
  (db_service.client this = None ∧ db_service.mongo_Connect drv = inr err)
  ∨ (db_service.FindOne_fault drv = Some err
     ∧ (db_service.client this ≠ None ∨ ∃ c, db_service.mongo_Connect drv = inl c)) →
  (db_service.CreateDocument doc_id drv (this, coll) id document).1
  = Some (db_service.ErrOther err)
  ∧ (db_service.FindDocument doc_id drv (this, coll) id).1 = inr (db_service.ErrOther err)
  ∧ (db_service.UpdateDocument doc_id drv (this, coll) id document).1
    = Some (db_service.ErrOther err)
  ∧ (db_service.DeleteDocument doc_id drv (this, coll) id).1
    = Some (db_service.ErrOther err)
  ∧ (db_service.CreateDocument doc_id drv (this, coll) id document).2.2 = coll
  ∧ (db_service.FindDocument doc_id drv (this, coll) id).2.2 = coll
  ∧ (db_service.UpdateDocument doc_id drv (this, coll) id document).2.2 = coll
  ∧ (db_service.DeleteDocument doc_id drv (this, coll) id).2.2 = coll.
Proof.
  unfold db_service.CreateDocument, db_service.FindDocument, db_service.UpdateDocument,
    db_service.DeleteDocument.
  intros [[Hcache Hconnect] | [Hfind Hclient]].
  - unfold db_service.connect. by rewrite Hcache, Hconnect.
  - assert (∃ cl this', db_service.connect drv this = (inl cl, this'))
      as (cl & this' & ->).
    { unfold db_service.connect. destruct (db_service.client this) as [c|]; [by eauto |].
      destruct Hclient as [? | [c ->]]; [done | by eauto]. }
    by rewrite Hfind.
Qed.

Lemma transport_failure_leaves_collection_witness :
  (db_service.FindDocument Ambulance_Id
     (db_service.mkDriver (inr "server selection timeout") None None) sample.store "A1").1
  = inr (db_service.ErrOther "server selection timeout").
Proof.
  apply (transport_failure_leaves_collection Ambulance_Id
           (db_service.mkDriver (inr "server selection timeout") None None)
           (db_service.mkSvc None) [sample.ambulance; sample.idle] "A1" sample.idle
           "server selection timeout").
  left. split; reflexivity.
Defined.

(** X11: [connect] caches what it constructs and nothing else.  A client it
    returns is cached, and every later [connect] returns that client without
    asking the driver; an error comes from the driver with no client cached,
    leaves the service as it is, and a later [connect] with a driver that
    works constructs and caches a client. *)
Theorem connect_caches_success_only (drv : db_service.Driver) (this : db_service.mongoSvc) :
  match db_service.connect drv this with
  | (inl c, this') =>
      db_service.client this' = Some c
      ∧ (db_service.client this = Some c ∨ db_service.mongo_Connect drv = inl c)
      ∧ ∀ drv', db_service.connect drv' this' = (inl c, this')
  | (inr err, this') =>
      this' = this
      ∧ db_service.client this = None
      ∧ (∃ msg, db_service.mongo_Connect drv = inr msg ∧ err = db_service.ErrOther msg)
      ∧ ∀ drv' c, db_service.mongo_Connect drv' = inl c →
                  db_service.connect drv' this' = (inl c, db_service.mkSvc (Some c))
  end.
Proof.
  unfold db_service.connect.
  destruct this as [[c|]]; simpl.
  - split; [done |]. split; [by left | done].
  - destruct (db_service.mongo_Connect drv) as [c | msg] eqn:Hconnect; simpl.
    + split; [done |]. split; [by right | done].
    + split; [done |]. split; [done |]. split; [by eauto |].
      intros drv' c ->. done.
Qed.

(** X12: [Disconnect] asks the driver to disconnect the cached client, if
    there is one, and leaves no client cached, also when the driver fails;
    without a cached client it does nothing and returns no error.  A second
    [Disconnect] is such a no-op, and a later [connect] constructs a new
    client. *)
Theorem Disconnect_clears_cache (fault fault' : option string) (this : db_service.mongoSvc) :
  let '(err, closed, this') := mongo_svc.Disconnect fault this in
  db_service.client this' = None
  ∧ closed = db_service.client this
  ∧ err = match db_service.client this with
          | Some _ => db_service.ErrOther <$> fault
          | None => None
          end
  ∧ mongo_svc.Disconnect fault' this' = (None, None, this')
  ∧ ∀ drv c, db_service.mongo_Connect drv = inl c →
             db_service.connect drv this' = (inl c, db_service.mkSvc (Some c)).
Proof.
  unfold mongo_svc.Disconnect. destruct this as [[c|]]; simpl.
  - repeat split. intros drv c' Hc. unfold db_service.connect. simpl. by rewrite Hc.
  - repeat split. intros drv c' Hc. unfold db_service.connect. simpl. by rewrite Hc.
Qed.

(** ** The handlers: lookups, replies and what is handed back *)

Section handler_facts.
Context (c : Context) (ambulance : Ambulance) (w : World).
Hypothesis Hparam : Param_entryId c ≠ "".

(** The search of lines 91, 139 and 187 finds nothing. *)
Lemma entry_lookup_absent :
  (∀ x, x ∈ WaitingList ambulance → Id x ≠ Param_entryId c) →
  slices.IndexFunc (WaitingList ambulance)
    (λ waiting, bool_decide (Param_entryId c = Id waiting)) = -1.
Proof.
  intros Habsent. apply IndexFunc_none, Forall_forall. intros x Hx.
  apply bool_decide_eq_false. intros Heq. by apply (Habsent x Hx).
Qed.

Lemma Get_absent :
  (∀ x, x ∈ WaitingList ambulance → Id x ≠ Param_entryId c) →
  GetWaitingListEntry c ambulance w
  = (Return None (H http.StatusNotFound "Entry not found" None) http.StatusNotFound, w).
Proof.
  intros Habsent. unfold GetWaitingListEntry.
  rewrite bool_decide_eq_false_2 by done. cbv zeta.
  by rewrite (entry_lookup_absent Habsent).
Qed.

Lemma Get_found i found :
  slices.IndexFunc (WaitingList ambulance)
    (λ waiting, bool_decide (Param_entryId c = Id waiting)) = Z.of_nat i →
  WaitingList ambulance !! i = Some found →
  GetWaitingListEntry c ambulance w = (Return None (RespEntry found) http.StatusOK, w).
Proof.
  intros Hi Hfound. unfold GetWaitingListEntry.
  rewrite bool_decide_eq_false_2 by done. cbv zeta. rewrite Hi.
  rewrite (proj2 (Z.ltb_ge _ _)) by lia. by rewrite Nat2Z.id, Hfound.
Qed.

Lemma Delete_absent :
  (∀ x, x ∈ WaitingList ambulance → Id x ≠ Param_entryId c) →
  DeleteWaitingListEntry c ambulance w
  = (Return None (H http.StatusNotFound "Entry not found" None) http.StatusNotFound, w).
Proof.
  intros Habsent. unfold DeleteWaitingListEntry.
  rewrite bool_decide_eq_false_2 by done. cbv zeta.
  by rewrite (entry_lookup_absent Habsent).
Qed.

Lemma Update_absent entry :
  ShouldBindJSON c = Bound entry →
  (∀ x, x ∈ WaitingList ambulance → Id x ≠ Param_entryId c) →
  UpdateWaitingListEntry c ambulance w
  = (Return None (H http.StatusNotFound "Entry not found" None) http.StatusNotFound, w).
Proof.
  intros Hbody Habsent. unfold UpdateWaitingListEntry. rewrite Hbody.
  rewrite bool_decide_eq_false_2 by done. cbv zeta.
  by rewrite (entry_lookup_absent Habsent).
Qed.

(** An entry with the requested id is in the list, or none is. *)
Lemma entry_present_dec :
  (∃ x, x ∈ WaitingList ambulance ∧ Id x = Param_entryId c)
  ∨ (∀ x, x ∈ WaitingList ambulance → Id x ≠ Param_entryId c).
Proof.
  destruct (IndexFunc_cases (λ waiting, bool_decide (Param_entryId c = Id waiting))
              (WaitingList ambulance)) as [[_ Hall] | (n & x & _ & Hn & Hx & _)].
  - right. intros x Hx Heq. rewrite Forall_forall in Hall.
    apply Hall in Hx. apply bool_decide_eq_false in Hx. by destruct Hx.
  - left. exists x. apply bool_decide_eq_true in Hx.
    split; [by eapply list_elem_of_lookup_2 | done].
Qed.

End handler_facts.

(** X13: with a non-empty entry id, [GetWaitingListEntry] answers 404 exactly
    when no entry of the list has that id; otherwise it answers 200 with the
    first entry that has it.  It never hands an ambulance back, and reads
    neither the clock nor the UUID generator. *)
Theorem Get_first_or_NotFound (c : Context) (ambulance : Ambulance) (w : World) :
  Param_entryId c ≠ "" →
  let run := GetWaitingListEntry c ambulance w in
  (run.1 = Return None (H http.StatusNotFound "Entry not found" None) http.StatusNotFound
   ↔ ∀ x, x ∈ WaitingList ambulance → Id x ≠ Param_entryId c)
  ∧ ((∃ x, x ∈ WaitingList ambulance ∧ Id x = Param_entryId c) →
       ∃ (i : nat) (found : WaitingListEntry),
         WaitingList ambulance !! i = Some found
         ∧ Id found = Param_entryId c
         ∧ Forall (λ x, Id x ≠ Param_entryId c) (take i (WaitingList ambulance))
         ∧ run.1 = Return None (RespEntry found) http.StatusOK)
  ∧ run.2 = w.
Proof.
  intros Hparam run. subst run.
  destruct (entry_present_dec c ambulance) as [Hpresent | Habsent].
  - destruct (entry_lookup c ambulance Hpresent) as (i & found & Hi & Hfound & HId & Hpre).
    rewrite (Get_found c ambulance w Hparam i found Hi Hfound). simpl.
    split; [| split]; [| by eauto 10 | done].
    split; [done |]. intros Habsent. destruct Hpresent as (x & Hx & Heq).
    by destruct (Habsent x Hx).
  - rewrite (Get_absent c ambulance w Hparam Habsent). simpl.
    split; [| split]; [done | | done].
    intros (x & Hx & Heq). by destruct (Habsent x Hx).
Qed.

Lemma Get_first_or_NotFound_witness :
  (GetWaitingListEntry (sample.request "e2" sample.first) sample.ambulance sample.world).1
  = Return None (RespEntry sample.second) http.StatusOK.
Proof.
  destruct (Get_first_or_NotFound (sample.request "e2" sample.first) sample.ambulance
              sample.world) as (_ & Hfound & _); [discriminate |].
  destruct Hfound as (i & found & Hi & HId & _ & Hrun).
  - exists sample.second. split; [| done].
    apply elem_of_cons. right. apply elem_of_cons. by left.
  - rewrite Hrun. destruct i as [|[|i]]; simpl in Hi.
    + injection Hi as <-. discriminate HId.
    + by injection Hi as <-.
    + discriminate Hi.
Defined.

(** X14: with a non-empty entry id, [DeleteWaitingListEntry] answers 404 and
    hands no ambulance back exactly when no entry of the list has that id.
    Otherwise it answers 204 and hands back the ambulance, same id and name,
    with one entry fewer: the entries of the list without the first one that
    has the id, each with the four supplied fields as they were. *)
Theorem Delete_removes_first_or_NotFound (c : Context) (ambulance : Ambulance) (w : World) :
  Param_entryId c ≠ "" →
  let run := DeleteWaitingListEntry c ambulance w in
  (run.1 = Return None (H http.StatusNotFound "Entry not found" None) http.StatusNotFound
   ↔ ∀ x, x ∈ WaitingList ambulance → Id x ≠ Param_entryId c)
  ∧ ((∃ x, x ∈ WaitingList ambulance ∧ Id x = Param_entryId c) →
       ∃ (i : nat) (old : WaitingListEntry) (updated : Ambulance),
         WaitingList ambulance !! i = Some old
         ∧ Id old = Param_entryId c
         ∧ Forall (λ x, Id x ≠ Param_entryId c) (take i (WaitingList ambulance))
         ∧ run.1 = Return (Some updated) RespNil http.StatusNoContent
         ∧ Ambulance_Id updated = Ambulance_Id ambulance
         ∧ Ambulance_Name updated = Ambulance_Name ambulance
         ∧ supplied <$> WaitingList updated ≡ₚ supplied <$> delete i (WaitingList ambulance)
         ∧ S (length (WaitingList updated)) = length (WaitingList ambulance))
  ∧ run.2 = w.
Proof.
  intros Hparam run. subst run.
  destruct (entry_present_dec c ambulance) as [Hpresent | Habsent].
  - destruct (entry_lookup c ambulance Hpresent) as (i & old & Hi & Hold & HId & Hpre).
    rewrite (Delete_found c ambulance w Hparam i Hi). simpl.
    split; [| split]; [| | done].
    + split; [done |]. intros Habsent. destruct Hpresent as (x & Hx & Heq).
      by destruct (Habsent x Hx).
    + intros _. eexists i, old, _. do 4 (split; [done |]). simpl.
      split; [done |]. split; [done |].
      split; [apply reconciler_facts.Reconcile_supplied |].
      rewrite reconciler_facts.Reconcile_length, length_delete by eauto.
      apply lookup_lt_Some in Hold. lia.
  - rewrite (Delete_absent c ambulance w Hparam Habsent). simpl.
    split; [| split]; [done | | done].
    intros (x & Hx & Heq). by destruct (Habsent x Hx).
Qed.

Lemma Delete_removes_first_or_NotFound_witness :
  ∃ updated,
    (DeleteWaitingListEntry (sample.request "e1" sample.first) sample.ambulance
       sample.world).1
    = Return (Some updated) RespNil http.StatusNoContent
    ∧ S (length (WaitingList updated)) = 2%nat.
Proof.
  destruct (Delete_removes_first_or_NotFound (sample.request "e1" sample.first)
              sample.ambulance sample.world) as (_ & Hfound & _); [discriminate |].
  destruct Hfound as (i & old & updated & _ & _ & _ & Hrun & _ & _ & _ & Hlen).
  - exists sample.first. split; [apply elem_of_cons; by left | done].
  - exists updated. split; [exact Hrun | exact Hlen].
Defined.

(** X15: the replies of [UpdateWaitingListEntry].  It answers 400 exactly
    when the body does not decode or the entry id is empty (the body is looked
    at first); 404 exactly when the body decodes, the entry id is not empty
    and no entry of the list has it; 200 otherwise.  It hands an ambulance
    back with 200 only, reads neither the clock nor the UUID generator, and
    never panics. *)
Theorem Update_replies (c : Context) (ambulance : Ambulance) (w : World) :
  ∃ updated response status,
    UpdateWaitingListEntry c ambulance w = (Return updated response status, w)
    ∧ (status = http.StatusBadRequest
       ↔ (∃ err, ShouldBindJSON c = BindError err) ∨ Param_entryId c = "")
    ∧ ((∃ err, ShouldBindJSON c = BindError err) →
         response = H http.StatusBadRequest "Invalid request body"
                      (match ShouldBindJSON c with
                       | BindError err => Some err
                       | Bound _ => None
                       end))
    ∧ (status = http.StatusNotFound
       ↔ (∃ entry, ShouldBindJSON c = Bound entry) ∧ Param_entryId c ≠ ""
         ∧ ∀ x, x ∈ WaitingList ambulance → Id x ≠ Param_entryId c)
    ∧ (status = http.StatusOK
       ↔ (∃ entry, ShouldBindJSON c = Bound entry) ∧ Param_entryId c ≠ ""
         ∧ ∃ x, x ∈ WaitingList ambulance ∧ Id x = Param_entryId c)
    ∧ (is_Some updated ↔ status = http.StatusOK).
Proof.
  destruct (ShouldBindJSON c) as [entry | err] eqn:Hbody.
  2: { eexists None, _, http.StatusBadRequest.
       split; [unfold UpdateWaitingListEntry; by rewrite Hbody |].
       split; [split; [by eauto | done] |]. split; [done |].
       split; [split; [done | by intros [[? ?] _]] |].
       split; [split; [done | by intros [[? ?] _]] |].
       split; [by intros [? ?] | done]. }
  destruct (decide (Param_entryId c = "")) as [Hparam | Hparam].
  { eexists None, _, http.StatusBadRequest.
    split.
    { unfold UpdateWaitingListEntry. rewrite Hbody. by rewrite bool_decide_eq_true_2. }
    split; [split; [by eauto | done] |]. split; [by intros [? ?] |].
    split; [split; [done | by intros (_ & ? & _)] |].
    split; [split; [done | by intros (_ & ? & _)] |].
    split; [by intros [? ?] | done]. }
  destruct (entry_present_dec c ambulance) as [Hpresent | Habsent].
  - destruct (entry_lookup c ambulance Hpresent) as (i & old & Hi & Hold & _).
    destruct (Update_found c ambulance w Hparam entry i old Hbody Hi Hold)
      as (returned & _ & Hrun).
    eexists (Some _), _, http.StatusOK. split; [exact Hrun |].
    split; [split; [done | by intros [[? ?] | ?]] |]. split; [by intros [? ?] |].
    split.
    { split; [done |]. intros (_ & _ & Habsent). destruct Hpresent as (x & Hx & Heq).
      by destruct (Habsent x Hx). }
    split; [split; [by eauto | done] |].
    split; [done | by eauto].
  - eexists None, _, http.StatusNotFound.
    split; [exact (Update_absent c ambulance w Hparam entry Hbody Habsent) |].
    split; [split; [done | by intros [[? ?] | ?]] |]. split; [by intros [? ?] |].
    split; [split; [by eauto | done] |].
    split.
    { split; [done |]. intros (_ & _ & x & Hx & Heq). by destruct (Habsent x Hx). }
    split; [by intros [? ?] | done].
Qed.

(** X16: the replies of [CreateWaitingListEntry].  It answers 400 exactly
    when the body does not decode or carries no [PatientId], and then has
    neither read the clock nor drawn a UUID; 409 exactly when the validated
    entry is in conflict with the list; 200 exactly when it is validated and
    not in conflict.  It hands an ambulance back with 200 only.  It never
    answers 500 and never panics. *)
Theorem Create_replies (c : Context) (ambulance : Ambulance) (w : World) :
  ∃ updated response status w',
    CreateWaitingListEntry c ambulance w = (Return updated response status, w')
    ∧ (status = http.StatusBadRequest
       ↔ (∃ err, ShouldBindJSON c = BindError err)
         ∨ (∃ entry, ShouldBindJSON c = Bound entry ∧ PatientId entry = ""))
    ∧ (status = http.StatusConflict
       ↔ ∃ entry, ShouldBindJSON c = Bound entry ∧ PatientId entry ≠ ""
                  ∧ in_conflict ambulance entry w)
    ∧ (status = http.StatusOK
       ↔ ∃ entry, ShouldBindJSON c = Bound entry ∧ PatientId entry ≠ ""
                  ∧ ¬ in_conflict ambulance entry w)
    ∧ (is_Some updated ↔ status = http.StatusOK)
    ∧ (status = http.StatusBadRequest → w' = w).
Proof.
  destruct (ShouldBindJSON c) as [entry | err] eqn:Hbody.
  2: { eexists None, _, http.StatusBadRequest, w.
       split; [unfold CreateWaitingListEntry; by rewrite Hbody |].
       split; [split; [by eauto | done] |].
       split; [split; [done | by intros (? & ? & _)] |].
       split; [split; [done | by intros (? & ? & _)] |].
       split; [| done]. split; [by intros [? ?] | done]. }
  destruct (decide (PatientId entry = "")) as [Hp | Hp].
  { eexists None, _, http.StatusBadRequest, w.
    split.
    { unfold CreateWaitingListEntry. rewrite Hbody. by rewrite bool_decide_eq_true_2. }
    split; [split; [by eauto | done] |].
    split; [split; [done | intros (e & [= <-] & Hne & _); by destruct Hne] |].
    split; [split; [done | intros (e & [= <-] & Hne & _); by destruct Hne] |].
    split; [| done]. split; [by intros [? ?] | done]. }
  destruct (in_conflict_dec ambulance entry w) as [Hc | Hfree].
  - eexists None, _, http.StatusConflict, _.
    split; [exact (Create_conflict c ambulance w entry Hbody Hp Hc) |].
    split; [split; [done | by intros [[? ?] | (e & [= <-] & ?)]] |].
    split; [split; [by eauto | done] |].
    split; [split; [done | intros (e & [= <-] & _ & Hfree); by destruct Hfree] |].
    split; [| done]. split; [by intros [? ?] | done].
  - destruct (Create_no_conflict c ambulance w entry Hbody Hp Hfree)
      as (stored & Hrun & _).
    eexists (Some _), _, http.StatusOK, _. split; [exact Hrun |].
    split; [split; [done | by intros [[? ?] | (e & [= <-] & ?)]] |].
    split; [split; [done | intros (e & [= <-] & _ & Hc); by destruct Hfree] |].
    split; [split; [by eauto | done] |].
    split; [| done]. split; [done | by eauto].
Qed.

(** What a successful create hands back. *)
Lemma Create_success c ambulance w entry updated response status w' :
  ShouldBindJSON c = Bound entry →
  PatientId entry ≠ "" →
  CreateWaitingListEntry c ambulance w = (Return (Some updated) response status, w') →
  ∃ (n : nat) (stored : WaitingListEntry),
    ¬ in_conflict ambulance entry w
    ∧ response = RespEntry stored ∧ status = http.StatusOK
    ∧ w' = world_after_create entry w
    ∧ updated = set_WaitingList (Reconcile (WaitingList ambulance ++ [created entry w]))
                  ambulance
    ∧ slices.IndexFunc (WaitingList updated)
        (λ waiting, bool_decide (Id stored = Id waiting)) = Z.of_nat n
    ∧ WaitingList updated !! n = Some stored
    ∧ supplied stored = supplied (created entry w).
Proof.
  intros Hbody Hpatient Hrun.
  destruct (in_conflict_dec ambulance entry w) as [Hc | Hfree].
  { by rewrite (Create_conflict c ambulance w entry Hbody Hpatient Hc) in Hrun. }
  destruct (Create_no_conflict c ambulance w entry Hbody Hpatient Hfree)
    as (stored & Hrun' & Hin & Heq).
  rewrite (Create_validated c ambulance w entry Hbody Hpatient) in Hrun, Hrun'.
  cbv zeta in Hrun, Hrun'.
  destruct (0 <=? slices.IndexFunc (WaitingList ambulance) (conflicts (created entry w)));
    [done |].
  set (l := Reconcile (WaitingList ambulance ++ [created entry w])) in *.
  set (f := λ waiting, bool_decide (Id (created entry w) = Id waiting)) in *.
  destruct (IndexFunc_cases f l) as [[Hi _] | (n & x & Hi & Hn & Hf & _)].
  { by rewrite Hi in Hrun'. }
  rewrite Hi in Hrun, Hrun'.
  rewrite (proj2 (Z.ltb_ge _ _)) in Hrun, Hrun' by lia.
  rewrite Nat2Z.id, Hn in Hrun, Hrun'.
  injection Hrun' as <-. injection Hrun as <- <- <- <-.
  exists n, x. do 5 (split; [done |]). simpl.
  assert (Id x = Id (created entry w)) as HId by (unfold supplied in Heq; congruence).
  split; [| done]. fold l. rewrite <- Hi. unfold f. by rewrite HId.
Qed.

(** X17: the entry a successful create stores has a positive
    [EstimatedDurationMinutes]: 15 when the request carries none or one that
    is not positive, the supplied number otherwise; its [PatientId] is the
    supplied one. *)
Theorem Create_duration_is_positive
    (c : Context) (ambulance : Ambulance) (w : World) (entry : WaitingListEntry) :
  ShouldBindJSON c = Bound entry →
  PatientId entry ≠ "" →
  ¬ in_conflict ambulance entry w →
  ∃ updated stored w',
    CreateWaitingListEntry c ambulance w
    = (Return (Some updated) (RespEntry stored) http.StatusOK, w')
    ∧ stored ∈ WaitingList updated
    ∧ 0 < EstimatedDurationMinutes stored
    ∧ (EstimatedDurationMinutes entry ≤ 0 → EstimatedDurationMinutes stored = 15)
    ∧ (0 < EstimatedDurationMinutes entry
       → EstimatedDurationMinutes stored = EstimatedDurationMinutes entry)
    ∧ PatientId stored = PatientId entry.
Proof.
  intros Hbody Hpatient Hfree.
  destruct (Create_no_conflict c ambulance w entry Hbody Hpatient Hfree)
    as (stored & Hrun & Hin & Heq).
  eexists _, stored, _. split; [exact Hrun |]. split; [exact Hin |].
  unfold supplied in Heq. injection Heq as _ -> _ ->. simpl.
  destruct (EstimatedDurationMinutes entry <=? 0) eqn:Hle;
    [apply Z.leb_le in Hle | apply Z.leb_gt in Hle]; repeat split; intros; lia.
Qed.

Lemma Create_duration_is_positive_witness :
  ∃ updated stored w',
    CreateWaitingListEntry (sample.request "" (mkEntry "" "p3" 0 (-5) 0)) sample.idle
      sample.world
    = (Return (Some updated) (RespEntry stored) http.StatusOK, w')
    ∧ EstimatedDurationMinutes stored = 15.
Proof.
  destruct (Create_duration_is_positive (sample.request "" (mkEntry "" "p3" 0 (-5) 0))
              sample.idle sample.world (mkEntry "" "p3" 0 (-5) 0) eq_refl)
    as (updated & stored & w' & Hrun & _ & _ & Hdefault & _).
  - discriminate.
  - intros (x & Hin & _). inversion Hin.
  - exists updated, stored, w'. split; [exact Hrun |]. apply Hdefault. simpl. lia.
Defined.

(** X18: a successful create hands back the ambulance, same id and name,
    with exactly one entry more: the entries it had, each with the four
    supplied fields as they were, and the new entry. *)
Theorem Create_adds_one_entry (c : Context) (ambulance updated : Ambulance) (w w' : World)
    (entry : WaitingListEntry) (response : Response) (status : Z) :
  ShouldBindJSON c = Bound entry →
  PatientId entry ≠ "" →
  CreateWaitingListEntry c ambulance w = (Return (Some updated) response status, w') →
  ∃ stored,
    response = RespEntry stored
    ∧ Ambulance_Id updated = Ambulance_Id ambulance
    ∧ Ambulance_Name updated = Ambulance_Name ambulance
    ∧ supplied <$> WaitingList updated
      ≡ₚ (supplied <$> WaitingList ambulance) ++ [supplied stored]
    ∧ length (WaitingList updated) = S (length (WaitingList ambulance)).
Proof.
  intros Hbody Hpatient Hrun.
  destruct (Create_success c ambulance w entry updated response status w'
              Hbody Hpatient Hrun)
    as (n & stored & _ & -> & _ & _ & -> & _ & _ & Heq).
  exists stored. split; [done |]. simpl. split; [done |]. split; [done |].
  split.
  - rewrite reconciler_facts.Reconcile_supplied, fmap_app. simpl. by rewrite Heq.
  - rewrite reconciler_facts.Reconcile_length, length_app. simpl. lia.
Qed.

Lemma Create_adds_one_entry_witness :
  ∃ updated stored w',
    CreateWaitingListEntry (sample.request "" (mkEntry "" "p3" 0 0 0)) sample.ambulance
      sample.world
    = (Return (Some updated) (RespEntry stored) 200, w')
    ∧ length (WaitingList updated) = 3%nat.
Proof.
  eexists _, _, _. split; [reflexivity |].
  destruct (Create_adds_one_entry (sample.request "" (mkEntry "" "p3" 0 0 0))
              sample.ambulance _ sample.world _ (mkEntry "" "p3" 0 0 0) _ _
              eq_refl ltac:(discriminate) eq_refl) as (stored & _ & _ & _ & _ & Hlen).
  exact Hlen.
Defined.

(** ** The handlers, one after the other *)

(** X19: the entry a successful create answers with is the entry
    [GetWaitingListEntry] answers with, when asked for its id on the ambulance
    the create handed back. *)
Theorem Create_then_Get (c c' : Context) (ambulance updated : Ambulance) (w w' w'' : World)
    (entry stored : WaitingListEntry) (status : Z) :
  ShouldBindJSON c = Bound entry →
  PatientId entry ≠ "" →
  CreateWaitingListEntry c ambulance w = (Return (Some updated) (RespEntry stored) status, w') →
  Param_entryId c' = Id stored →
  Id stored ≠ "" →
  GetWaitingListEntry c' updated w'' = (Return None (RespEntry stored) http.StatusOK, w'').
Proof.
  intros Hbody Hpatient Hrun Hparam Hid.
  destruct (Create_success c ambulance w entry updated _ status w' Hbody Hpatient Hrun)
    as (n & stored' & _ & [= <-] & _ & _ & _ & Hi & Hn & _).
  apply (Get_found c' updated w'') with n; [by rewrite Hparam | | done].
  by rewrite Hparam.
Qed.

Lemma Create_then_Get_witness :
  GetWaitingListEntry (sample.request "6ba7b810-9dad" sample.first)
    (mkAmbulance "A2" "Ambulance 2" [mkEntry "6ba7b810-9dad" "p3" 5000 15 5000])
    sample.world
  = (Return None (RespEntry (mkEntry "6ba7b810-9dad" "p3" 5000 15 5000)) http.StatusOK,
     sample.world).
Proof.
  eapply (Create_then_Get (sample.request "" (mkEntry "" "p3" 5000 0 0))
           (sample.request "6ba7b810-9dad" sample.first) sample.idle _ sample.world _
           sample.world (mkEntry "" "p3" 5000 0 0) _ 200 eq_refl).
  - discriminate.
  - reflexivity.
  - reflexivity.
  - discriminate.
Defined.

(** X20: deleting the entry a successful create answered with, on the
    ambulance the create handed back, hands back the ambulance with the
    entries it had before the create, each with the four supplied fields as
    they were. *)
Theorem Create_then_Delete (c c' : Context) (ambulance updated : Ambulance)
    (w w' w'' : World) (entry stored : WaitingListEntry) (status : Z) :
  ShouldBindJSON c = Bound entry →
  PatientId entry ≠ "" →
  CreateWaitingListEntry c ambulance w = (Return (Some updated) (RespEntry stored) status, w') →
  Param_entryId c' = Id stored →
  Id stored ≠ "" →
  ∃ restored,
    DeleteWaitingListEntry c' updated w''
    = (Return (Some restored) RespNil http.StatusNoContent, w'')
    ∧ Ambulance_Id restored = Ambulance_Id ambulance
    ∧ Ambulance_Name restored = Ambulance_Name ambulance
    ∧ supplied <$> WaitingList restored ≡ₚ supplied <$> WaitingList ambulance.
Proof.
  intros Hbody Hpatient Hrun Hparam Hid.
  destruct (Create_success c ambulance w entry updated _ status w' Hbody Hpatient Hrun)
    as (n & stored' & _ & [= <-] & _ & _ & Hupdated & Hi & Hn & Heq).
  eexists. split.
  { assert (Param_entryId c' ≠ "") as Hparam' by (by rewrite Hparam).
    apply (Delete_found c' updated w'' Hparam' n). by rewrite Hparam. }
  simpl. rewrite Hupdated at 1 2. simpl. split; [done |]. split; [done |].
  rewrite reconciler_facts.Reconcile_supplied, list_fmap_delete.
  assert ((supplied <$> WaitingList updated) !! n = Some (supplied stored)) as Hlook.
  { by rewrite list_lookup_fmap, Hn. }
  apply delete_Permutation in Hlook.
  apply (Permutation_cons_inv (a := supplied stored)). rewrite <- Hlook.
  rewrite Hupdated. simpl.
  rewrite reconciler_facts.Reconcile_supplied, fmap_app. simpl.
  rewrite Heq. by rewrite <- Permutation_cons_append.
Qed.

Lemma Create_then_Delete_witness :
  ∃ restored,
    DeleteWaitingListEntry (sample.request "6ba7b810-9dad" sample.first)
      (mkAmbulance "A2" "Ambulance 2" [mkEntry "6ba7b810-9dad" "p3" 5000 15 5000])
      sample.world
    = (Return (Some restored) RespNil http.StatusNoContent, sample.world)
    ∧ Ambulance_Id restored = "A2"
    ∧ Ambulance_Name restored = "Ambulance 2"
    ∧ supplied <$> WaitingList restored ≡ₚ [].
Proof.
  eapply (Create_then_Delete (sample.request "" (mkEntry "" "p3" 5000 0 0))
           (sample.request "6ba7b810-9dad" sample.first) sample.idle _ sample.world _
           sample.world (mkEntry "" "p3" 5000 0 0) _ 200 eq_refl).
  - discriminate.
  - reflexivity.
  - reflexivity.
  - discriminate.
Defined.

(** A body without values patches nothing. *)
Lemma patch_nothing entry stored :
  PatientId entry = "" → Id entry = "" →
  WaitingSince entry ≤ time.zero → EstimatedDurationMinutes entry ≤ 0 →
  patch entry stored = stored.
Proof.
  intros Hp Hi Hw Hd. unfold patch, time.After, time.zero in *.
  rewrite Hp, Hi. simpl.
  rewrite (proj2 (Z.ltb_ge _ _) Hw), (proj2 (Z.ltb_ge _ _) Hd). done.
Qed.

(** X21: an update whose body supplies none of the four fields succeeds when
    the entry exists and stores the reconciled list, no entry changed; on a
    list that is already reconciled the ambulance handed back is the
    ambulance as it was, and the reply is the entry found. *)
Theorem Update_without_fields (c : Context) (ambulance : Ambulance) (w : World)
    (entry : WaitingListEntry) :
  ShouldBindJSON c = Bound entry →
  Param_entryId c ≠ "" →
  (∃ x, x ∈ WaitingList ambulance ∧ Id x = Param_entryId c) →
  PatientId entry = "" → Id entry = "" →
  WaitingSince entry ≤ time.zero → EstimatedDurationMinutes entry ≤ 0 →
  ∃ updated returned,
    UpdateWaitingListEntry c ambulance w
    = (Return (Some updated) (RespEntry returned) http.StatusOK, w)
    ∧ updated = reconcileWaitingList ambulance
    ∧ (Reconcile (WaitingList ambulance) = WaitingList ambulance →
         updated = ambulance ∧ returned ∈ WaitingList ambulance
         ∧ Id returned = Param_entryId c).
Proof.
  intros Hbody Hparam Hpresent Hp Hi Hw Hd.
  destruct (entry_lookup c ambulance Hpresent) as (i & old & Hidx & Hold & HId & _).
  destruct (Update_found c ambulance w Hparam entry i old Hbody Hidx Hold)
    as (returned & Hret & Hrun).
  rewrite (patch_nothing entry old Hp Hi Hw Hd) in Hret, Hrun.
  rewrite (list_insert_id _ _ _ Hold) in Hret, Hrun.
  eexists _, returned. split; [exact Hrun |]. split; [done |].
  intros Hfix. rewrite Hfix in Hret |- *.
  assert (returned = old) as -> by congruence.
  split; [by destruct ambulance |]. split; [by eapply list_elem_of_lookup_2 | done].
Qed.

Lemma Update_without_fields_witness :
  UpdateWaitingListEntry (sample.request "e2" (mkEntry "" "" 0 0 0)) sample.ambulance
    sample.world
  = (Return (Some sample.ambulance) (RespEntry sample.second) http.StatusOK, sample.world).
Proof.
  destruct (Update_without_fields (sample.request "e2" (mkEntry "" "" 0 0 0))
              sample.ambulance sample.world (mkEntry "" "" 0 0 0) eq_refl)
    as (updated & returned & Hrun & _ & Hsame).
  - discriminate.
  - exists sample.second. split; [| done].
    apply elem_of_cons. right. apply elem_of_cons. by left.
  - reflexivity.
  - reflexivity.
  - simpl. unfold time.zero. lia.
  - simpl. lia.
  - rewrite Hrun. destruct (Hsame eq_refl) as (-> & Hin & HId).
    change (returned ∈ [sample.first; sample.second]) in Hin.
    rewrite !elem_of_cons in Hin. destruct Hin as [-> | [-> | Hin]].
    + discriminate HId.
    + reflexivity.
    + inversion Hin.
Defined.

(** X22: in a list without two entries of the same id, an entry that was
    deleted is not found afterwards: [GetWaitingListEntry] answers 404 for its
    id on the ambulance the delete handed back. *)
Theorem Delete_then_Get (c : Context) (ambulance updated : Ambulance) (w w' w'' : World)
    (response : Response) (status : Z) :
  NoDup (Id <$> WaitingList ambulance) →
  DeleteWaitingListEntry c ambulance w = (Return (Some updated) response status, w') →
  GetWaitingListEntry c updated w''
  = (Return None (H http.StatusNotFound "Entry not found" None) http.StatusNotFound, w'').
Proof.
  intros Hids Hrun.
  destruct (decide (Param_entryId c = "")) as [Hparam | Hparam].
  { unfold DeleteWaitingListEntry in Hrun. by rewrite bool_decide_eq_true_2 in Hrun. }
  destruct (entry_present_dec c ambulance) as [Hpresent | Habsent].
  2: { by rewrite (Delete_absent c ambulance w Hparam Habsent) in Hrun. }
  destruct (entry_lookup c ambulance Hpresent) as (i & old & Hi & Hold & HId & _).
  rewrite (Delete_found c ambulance w Hparam i Hi) in Hrun. injection Hrun as <- _ _ _.
  apply Get_absent; [done |]. simpl. intros x Hx Heq.
  apply reconciler_facts.Reconcile_elem in Hx as (e0 & He0 & Hsupplied).
  assert (Id e0 = Id old) as Hsame by (unfold supplied in Hsupplied; congruence).
  apply delete_Permutation in Hold as Hperm.
  rewrite Hperm, fmap_cons in Hids. apply NoDup_cons in Hids as [Hnotin _].
  apply Hnotin. rewrite <- Hsame. by apply list_elem_of_fmap_2.
Qed.

Lemma Delete_then_Get_witness :
  GetWaitingListEntry (sample.request "e1" sample.first)
    (mkAmbulance "A1" "Ambulance 1" [mkEntry "e2" "p2" 200 15 200]) sample.world
  = (Return None (H http.StatusNotFound "Entry not found" None) http.StatusNotFound,
     sample.world).
Proof.
  apply (Delete_then_Get (sample.request "e1" sample.first) sample.ambulance _
           sample.world sample.world sample.world RespNil 204).
  - apply (bool_decide_unpack _). by vm_compute.
  - reflexivity.
Defined.

(** X23: an update that supplies neither [Id] nor [PatientId] keeps the
    uniqueness invariant of the list. *)
Theorem Update_without_identity_keeps_unique_entries (c : Context)
    (ambulance updated : Ambulance) (w w' : World) (entry : WaitingListEntry)
    (response : Response) (status : Z) :
  unique_entries (WaitingList ambulance) →
  ShouldBindJSON c = Bound entry →
  Id entry = "" → PatientId entry = "" →
  UpdateWaitingListEntry c ambulance w = (Return (Some updated) response status, w') →
  unique_entries (WaitingList updated).
Proof.
  intros [Hids Hpatients] Hbody Hi Hp Hrun.
  destruct (decide (Param_entryId c = "")) as [Hparam | Hparam].
  { unfold UpdateWaitingListEntry in Hrun. rewrite Hbody in Hrun.
    by rewrite bool_decide_eq_true_2 in Hrun. }
  destruct (entry_present_dec c ambulance) as [Hpresent | Habsent].
  2: { by rewrite (Update_absent c ambulance w Hparam entry Hbody Habsent) in Hrun. }
  destruct (entry_lookup c ambulance Hpresent) as (i & old & Hidx & Hold & _).
  destruct (Update_found c ambulance w Hparam entry i old Hbody Hidx Hold)
    as (returned & _ & Hrun').
  rewrite Hrun' in Hrun. injection Hrun as <- _ _ _. simpl.
  apply reconciler_facts.Reconcile_unique.
  destruct (patch_fields entry old) as (_ & Hp' & _ & Hi' & _).
  split; rewrite list_fmap_insert, list_insert_id; try done.
  - rewrite list_lookup_fmap, Hold. simpl. by rewrite Hi'.
  - rewrite list_lookup_fmap, Hold. simpl. by rewrite Hp'.
Qed.

Lemma Update_without_identity_keeps_unique_entries_witness :
  unique_entries [mkEntry "e2" "p2" 200 15 200; mkEntry "e1" "p1" 300 15 900000000200].
Proof.
  apply (Update_without_identity_keeps_unique_entries
           (sample.request "e1" (mkEntry "" "" 300 0 0)) sample.ambulance
           (mkAmbulance "A1" "Ambulance 1"
              [mkEntry "e2" "p2" 200 15 200; mkEntry "e1" "p1" 300 15 900000000200])
           sample.world sample.world (mkEntry "" "" 300 0 0)
           (RespEntry (mkEntry "e2" "p2" 200 15 200)) 200).
  - split; apply (bool_decide_unpack _); by vm_compute.
  - reflexivity.
  - reflexivity.
  - reflexivity.
  - reflexivity.
Defined.

(** ** More on [connect] under concurrent callers *)

(** X24: in every run of concurrent callers of [connect], the mutex is taken
    exactly when some caller is between [Lock] and [Unlock], and at most one
    caller is: no caller returns with the mutex taken, and the pessimistic
    check, [mongo.Connect] and the [Store] are never run by two callers at
    once. *)
Theorem connect_mutual_exclusion
    (schedule : list (nat * option string)) (s : concurrent.State) :
  concurrent.run schedule concurrent.init = Some s →
  (concurrent.locked s = true
   ↔ ∃ i, concurrent.holds_lock (concurrent.callers s i) = true)
  ∧ ∀ i j, concurrent.holds_lock (concurrent.callers s i) = true →
           concurrent.holds_lock (concurrent.callers s j) = true → i = j.
Proof.
  intros Hrun. pose proof (run_Inv schedule _ s init_Inv Hrun) as HI.
  split; [split |].
  - apply (concurrent.inv_holder s HI).
  - intros [i Hi]. by apply (concurrent.inv_locked s HI i).
  - apply (concurrent.inv_exclusive s HI).
Qed.

Lemma connect_mutual_exclusion_witness :
  ∃ s, concurrent.run (take 4 concurrent.race) concurrent.init = Some s
       ∧ concurrent.locked s = true
       ∧ ∀ j, concurrent.holds_lock (concurrent.callers s j) = true → j = 1%nat.
Proof.
  eexists. split; [reflexivity |].
  destruct (connect_mutual_exclusion (take 4 concurrent.race) _ eq_refl)
    as [Hlocked Hexclusive].
  split.
  - apply Hlocked. by exists 1%nat.
  - intros j Hj. apply (Hexclusive j 1%nat Hj). reflexivity.
Defined.



Section measure_facts.
Import concurrent concurrent_measure.

Lemma step_remaining i fault s s' :
  step i fault s = Some s' →
  (remaining (callers s' i) < remaining (callers s i))%nat
  ∧ ∀ j, j ≠ i → callers s' j = callers s j.
Proof.
  rewrite step_fields. intros Hstep.
  destruct (callers s i) as [| | | |c|r|r] eqn:Hpc; simpl.
  all: repeat match goal with
         | H : context [match ?x with _ => _ end] |- _ => destruct x
         end.
  all: simplify_eq; simpl; unfold move.
  all: split; [rewrite decide_True by done; simpl; lia |].
  all: intros j Hj; by rewrite decide_False.
Qed.

Lemma run_remaining schedule s s' i :
  run schedule s = Some s' →
  (steps_of i schedule + remaining (callers s' i) ≤ remaining (callers s i))%nat.
Proof.
  revert s. induction schedule as [|[k fault] schedule IH]; intros s Hrun; simpl in Hrun.
  - simplify_eq. unfold steps_of. simpl. lia.
  - destruct (step k fault s) as [s1|] eqn:Hstep; [| done].
    apply IH in Hrun. apply step_remaining in Hstep as [Hlt Hother].
    unfold steps_of in *. rewrite filter_cons. simpl.
    destruct (decide (k = i)) as [-> | Hne]; simpl.
    + lia.
    + rewrite (Hother i) in Hrun by done. lia.
Qed.

End measure_facts.

(** X26: in every run of concurrent callers of [connect], a caller takes at
    most six steps, and one that has taken six has returned: [connect] does
    not loop, and does not retry within a call. *)
Theorem connect_takes_six_steps_at_most
    (schedule : list (nat * option string)) (s : concurrent.State) (i : nat) :
  concurrent.run schedule concurrent.init = Some s →
  (concurrent_measure.steps_of i schedule ≤ 6)%nat
  ∧ (concurrent_measure.steps_of i schedule = 6%nat →
       ∃ r, concurrent.callers s i = concurrent.Returned r).
Proof.
  intros Hrun. pose proof (run_remaining schedule _ s i Hrun) as Hle. simpl in Hle.
  split; [lia |]. intros Hsix.
  destruct (concurrent.callers s i) as [| | | |c|r|r]; simpl in Hle; try lia.
  by exists r.
Qed.

Lemma connect_takes_six_steps_at_most_witness :
  ∃ s, concurrent.run concurrent.race concurrent.init = Some s
       ∧ (concurrent_measure.steps_of 1 concurrent.race ≤ 6)%nat
       ∧ ∃ r, concurrent.callers s 1%nat = concurrent.Returned r.
Proof.
  eexists. split; [reflexivity |].
  destruct (connect_takes_six_steps_at_most concurrent.race _ 1%nat eq_refl)
    as [Hle Hsix].
  split; [exact Hle |]. apply Hsix. reflexivity.
Defined.

Section alone_facts.
Import concurrent concurrent_measure.

Lemma move_same i pc (cs : nat → Pc) : move i pc cs i = pc.
Proof. unfold move. by rewrite decide_True. Qed.

Lemma move_other i j pc (cs : nat → Pc) : j ≠ i → move i pc cs j = cs j.
Proof. intros Hj. unfold move. by rewrite decide_False. Qed.

End alone_facts.

(** X27: a caller that runs [connect] alone, from any state in which the
    mutex is free, returns what the function [connect] of the store returns
    on the cached client, and leaves cached what that function leaves cached;
    it releases the mutex and does not touch the other callers. *)
Theorem connect_alone_is_sequential
    (s : concurrent.State) (i : nat) (fault : option string) :
  concurrent.locked s = false →
  concurrent.callers s i = concurrent.AtLoad →
  let alone := db_service.connect (concurrent_measure.driver_of fault s)
                 (db_service.mkSvc (concurrent.cached s)) in
  ∃ schedule s',
    Forall (λ p, p.1 = i) schedule
    ∧ concurrent.run schedule s = Some s'
    ∧ concurrent.callers s' i = concurrent.Returned alone.1
    ∧ db_service.mkSvc (concurrent.cached s') = alone.2
    ∧ concurrent.locked s' = false
    ∧ ∀ j, j ≠ i → concurrent.callers s' j = concurrent.callers s j.
Proof.
  intros Hfree Hpc alone. subst alone.
  destruct s as [cached locked constructed failed callers]. simpl in *. subst locked.
  unfold db_service.connect, concurrent_measure.driver_of. simpl.
  destruct cached as [c|]; [| destruct fault as [err|]]; simpl.
  - exists [(i, fault)]. eexists. split; [by repeat constructor |].
    split; [simpl; by rewrite Hpc |]. simpl.
    split; [apply move_same |]. split; [done |]. split; [done |].
    intros j Hj. by apply move_other.
  - exists (replicate 5 (i, Some err)). eexists.
    split; [by repeat constructor |]. split.
    { simpl. rewrite Hpc. simpl. rewrite !move_same. simpl. rewrite !move_same. simpl.
      rewrite !move_same. simpl. rewrite !move_same. reflexivity. }
    simpl. split; [apply move_same |]. split; [done |]. split; [done |].
    intros j Hj. by rewrite !move_other.
  - exists (replicate 6 (i, None)). eexists.
    split; [by repeat constructor |]. split.
    { simpl. rewrite Hpc. simpl. rewrite !move_same. simpl. rewrite !move_same. simpl.
      rewrite !move_same. simpl. rewrite !move_same. simpl. rewrite !move_same.
      reflexivity. }
    simpl. split; [apply move_same |]. split; [done |]. split; [done |].
    intros j Hj. by rewrite !move_other.
Qed.

Lemma connect_alone_is_sequential_witness :
  ∃ schedule s',
    Forall (λ p, p.1 = 7%nat) schedule
    ∧ concurrent.run schedule concurrent.init = Some s'
    ∧ concurrent.callers s' 7%nat = concurrent.Returned (inl 1%nat)
    ∧ db_service.mkSvc (concurrent.cached s') = db_service.mkSvc (Some 1%nat)
    ∧ concurrent.locked s' = false
    ∧ ∀ j, j ≠ 7%nat → concurrent.callers s' j = concurrent.AtLoad.
Proof.
  exact (connect_alone_is_sequential concurrent.init 7%nat None eq_refl eq_refl).
Defined.

(** ** [NewMongoService] *)

(** X28: a configuration with every field set is kept as it is, whatever the
    environment holds; the client cache starts empty. *)
Theorem NewMongoService_explicit_config_wins
    (Atoi : string → option Z) (env : gmap string string)
    (config : mongo_svc.MongoServiceConfig) :
  mongo_svc.ServerHost config ≠ "" →
  mongo_svc.ServerPort config ≠ 0 →
  mongo_svc.UserName config ≠ "" →
  mongo_svc.Password config ≠ "" →
  mongo_svc.DbName config ≠ "" →
  mongo_svc.Collection config ≠ "" →
  mongo_svc.Timeout config ≠ 0 →
  mongo_svc.NewMongoService Atoi env config = (config, db_service.mkSvc None).
Proof.
  intros Hhost Hport Huser Hpassword Hdb Hcollection Htimeout.
  unfold mongo_svc.NewMongoService.
  rewrite !bool_decide_eq_false_2 by done. by destruct config.
Qed.

Lemma NewMongoService_explicit_config_wins_witness :
  mongo_svc.NewMongoService sample_config.Atoi sample_config.environment sample_config.full
  = (sample_config.full, db_service.mkSvc None).
Proof.
  apply NewMongoService_explicit_config_wins; discriminate.
Defined.

(** X29: for a parser that reads the two default literals, the port of the
    service is zero exactly when the configuration leaves it zero and the
    environment variable is set and denotes zero, and the timeout is zero
    exactly when the configuration leaves it zero and the environment variable
    is set and denotes a number of seconds whose nanoseconds wrap to zero.
    Neither the defaults nor an unreadable variable give zero. *)
Theorem NewMongoService_zero_only_from_environment
    (Atoi : string → option Z) (env : gmap string string)
    (config : mongo_svc.MongoServiceConfig) :
  Atoi "27017" = Some 27017 →
  Atoi "10" = Some 10 →
  let resolved := (mongo_svc.NewMongoService Atoi env config).1 in
  (mongo_svc.ServerPort resolved = 0
   ↔ mongo_svc.ServerPort config = 0
     ∧ ∃ value, env !! "AMBULANCE_API_MONGODB_PORT" = Some value ∧ Atoi value = Some 0)
  ∧ (mongo_svc.Timeout resolved = 0
     ↔ mongo_svc.Timeout config = 0
       ∧ ∃ value seconds,
           env !! "AMBULANCE_API_MONGODB_TIMEOUT_SECONDS" = Some value
           ∧ Atoi value = Some seconds
           ∧ mongo_svc.wrap64 (seconds * mongo_svc.Second) = 0).
Proof.
  intros Hport Hten resolved. subst resolved.
  unfold mongo_svc.NewMongoService, mongo_svc.enviro. simpl. split.
  - case_bool_decide as Hzero; [| split; [done | by intros [? _]]].
    destruct (env !! "AMBULANCE_API_MONGODB_PORT") as [value|].
    + destruct (Atoi value) as [port|] eqn:Hvalue.
      * split.
        { intros ->. split; [done |]. by exists value. }
        { intros (_ & value' & [= <-] & Hvalue'). congruence. }
      * split; [done |]. intros (_ & value' & [= <-] & Hvalue'). congruence.
    + rewrite Hport. split; [done |]. by intros (_ & value' & ? & _).
  - case_bool_decide as Hzero; [| split; [done | by intros [? _]]].
    destruct (env !! "AMBULANCE_API_MONGODB_TIMEOUT_SECONDS") as [value|].
    + destruct (Atoi value) as [seconds|] eqn:Hvalue.
      * split.
        { intros Hwrap. split; [done |]. by exists value, seconds. }
        { intros (_ & value' & seconds' & [= <-] & Hvalue' & Hwrap). congruence. }
      * split; [done |].
        intros (_ & value' & seconds' & [= <-] & Hvalue' & _). congruence.
    + rewrite Hten. split; [done |]. by intros (_ & value' & seconds' & ? & _).
Qed.

Lemma NewMongoService_zero_only_from_environment_witness :
  mongo_svc.Timeout
    (mongo_svc.NewMongoService sample_config.Atoi sample_config.environment
       (mongo_svc.mkConfig "" 0 "" "" "" "" 0)).1 = 0
  ∧ mongo_svc.ServerPort
      (mongo_svc.NewMongoService sample_config.Atoi sample_config.environment
         (mongo_svc.mkConfig "" 0 "" "" "" "" 0)).1 ≠ 0.
Proof.
  destruct (NewMongoService_zero_only_from_environment sample_config.Atoi
              sample_config.environment (mongo_svc.mkConfig "" 0 "" "" "" "" 0)
              eq_refl eq_refl) as [Hport Htimeout].
  split.
  - apply Htimeout. split; [done |]. by exists "0", 0.
  - intros Hzero. apply Hport in Hzero as (_ & value & Hvalue & Hparse).
    vm_compute in Hvalue. injection Hvalue as <-. discriminate Hparse.
Defined.

Lemma wrap64_small z : - 2 ^ 63 ≤ z < 2 ^ 63 → mongo_svc.wrap64 z = z.
Proof. intros Hz. unfold mongo_svc.wrap64. rewrite Z.mod_small; lia. Qed.

(** X30: a timeout left zero in the configuration is the number of seconds
    the environment variable denotes, in nanoseconds and without wrap-around
    for up to 9223372036 seconds either side of zero; zero and negative
    numbers are taken as they are.  Only a variable that is not a number
    gives the default of ten seconds. *)
Theorem NewMongoService_timeout_from_environment
    (Atoi : string → option Z) (env : gmap string string)
    (config : mongo_svc.MongoServiceConfig) (value : string) :
  mongo_svc.Timeout config = 0 →
  env !! "AMBULANCE_API_MONGODB_TIMEOUT_SECONDS" = Some value →
  let resolved := (mongo_svc.NewMongoService Atoi env config).1 in
  (Atoi value = None → mongo_svc.Timeout resolved = 10 * mongo_svc.Second)
  ∧ (∀ seconds, Atoi value = Some seconds →
       -9223372036 ≤ seconds ≤ 9223372036 →
       mongo_svc.Timeout resolved = seconds * mongo_svc.Second).
Proof.
  intros Hzero Hvalue resolved. subst resolved.
  unfold mongo_svc.NewMongoService, mongo_svc.enviro. simpl.
  rewrite bool_decide_eq_true_2 by done. rewrite Hvalue. split.
  - by intros ->.
  - intros seconds -> Hrange. apply wrap64_small. unfold mongo_svc.Second. lia.
Qed.

Lemma NewMongoService_timeout_from_environment_witness :
  mongo_svc.Timeout
    (mongo_svc.NewMongoService sample_config.Atoi
       (<["AMBULANCE_API_MONGODB_TIMEOUT_SECONDS" := "30"]> ∅)
       (mongo_svc.mkConfig "" 0 "" "" "" "" 0)).1
  = 30 * mongo_svc.Second.
Proof.
  destruct (NewMongoService_timeout_from_environment sample_config.Atoi
              (<["AMBULANCE_API_MONGODB_TIMEOUT_SECONDS" := "30"]> ∅)
              (mongo_svc.mkConfig "" 0 "" "" "" "" 0) "30" eq_refl)
    as [_ Hseconds].
  - by vm_compute.
  - apply Hseconds; [reflexivity | lia].
Defined.

(** ** Samples of the replies and of the life cycle *)

Lemma Update_replies_witness :
  ∃ updated response,
    UpdateWaitingListEntry (sample.request "e9" sample.first) sample.ambulance sample.world
    = (Return updated response http.StatusNotFound, sample.world).
Proof.
  destruct (Update_replies (sample.request "e9" sample.first) sample.ambulance sample.world)
    as (updated & response & status & Hrun & _ & _ & Hnotfound & _).
  assert (status = http.StatusNotFound) as ->.
  { apply Hnotfound. split; [by eexists |]. split; [discriminate |].
    intros x Hx. change (x ∈ [sample.first; sample.second]) in Hx.
    rewrite !elem_of_cons in Hx.
    destruct Hx as [-> | [-> | Hx]]; [discriminate | discriminate | by inversion Hx]. }
  by exists updated, response.
Defined.

Lemma Create_replies_witness :
  ∃ updated response w',
    CreateWaitingListEntry (sample.request "" (mkEntry "" "p2" 0 0 0)) sample.ambulance
      sample.world
    = (Return updated response http.StatusConflict, w').
Proof.
  destruct (Create_replies (sample.request "" (mkEntry "" "p2" 0 0 0)) sample.ambulance
              sample.world)
    as (updated & response & status & w' & Hrun & _ & Hconflict & _).
  assert (status = http.StatusConflict) as ->.
  { apply Hconflict. eexists. split; [reflexivity |]. split; [discriminate |].
    exists sample.second. split; [| by right].
    apply elem_of_cons. right. apply elem_of_cons. by left. }
  by exists updated, response, w'.
Defined.

Lemma connect_caches_success_only_witness :
  db_service.connect (db_service.mkDriver (inr "no route to host") None None)
    (db_service.mkSvc (Some 1%nat))
  = (inl 1%nat, db_service.mkSvc (Some 1%nat)).
Proof.
  pose proof (connect_caches_success_only sample.driver (db_service.mkSvc None)) as Hconnect.
  simpl in Hconnect. destruct Hconnect as (_ & _ & Hagain).
  exact (Hagain (db_service.mkDriver (inr "no route to host") None None)).
Defined.

Lemma Disconnect_clears_cache_witness :
  mongo_svc.Disconnect (Some "connection reset") (db_service.mkSvc (Some 1%nat))
  = (Some (db_service.ErrOther "connection reset"), Some 1%nat, db_service.mkSvc None)
  ∧ mongo_svc.Disconnect (Some "connection reset") (db_service.mkSvc None)
    = (None, None, db_service.mkSvc None).
Proof.
  pose proof (Disconnect_clears_cache (Some "connection reset") (Some "connection reset")
                (db_service.mkSvc (Some 1%nat))) as Hdisconnect.
  simpl in Hdisconnect. destruct Hdisconnect as (_ & _ & _ & Hagain & _).
  split; [reflexivity | exact Hagain].
Defined.
